(** * riichi-forge: the tenhou log generator [generate_log.py]

    A shallow embedding of the draw generator, the call notation encoder,
    the discard builder and the score table of [generate_log.py], and the
    properties its specification states about them.

    Python values are modelled as follows: an [int] is a [Z], a [str] a
    [string], a list a [list], a [dict] a [gmap], a [set] a [gset].  A list
    that holds both integers and strings (draw and discard records) is a
    list of [Entry].  An exception is a value of [Exn] carried by [Result].
    The module-level configuration variables are the fields of [Config].
    [random.choice] reads its index from an oracle [rnd : nat -> nat], one
    cell per call, so a statement for every [rnd] covers every run. *)

From Stdlib Require Import ZArith String Ascii List DecimalString Lia.
From stdpp Require Import gmap strings list fin_maps sorting.

Open Scope Z_scope.

(** ** Exceptions and results *)

Inductive Exn : Type :=
  | ValueError (msg : string)
  | IndexError (msg : string)
  | KeyError (key : string)
  | TypeError (msg : string).

Inductive Result (A : Type) : Type :=
  | Ok (a : A)
  | Raise (e : Exn).

Arguments Ok {A} a.
Arguments Raise {A} e.

#[global] Instance Result_ret : MRet Result := fun A a => Ok a.

#[global] Instance Result_bind : MBind Result := fun A B f m =>
  match m with
  | Ok a => f a
  | Raise e => Raise e
  end.

#[global] Instance Result_fmap : FMap Result := fun A B f m =>
  match m with
  | Ok a => Ok (f a)
  | Raise e => Raise e
  end.

Definition from_option {A : Type} (e : Exn) (o : option A) : Result A :=
  match o with
  | Some a => Ok a
  | None => Raise e
  end.

(** A [for] loop whose body may raise: the state is threaded from left to
    right and the first exception ends the loop. *)
Fixpoint for_each {S X : Type} (body : X -> S -> Result S) (xs : list X) (s : S)
  : Result S :=
  match xs with
  | [] => Ok s
  | x :: xs' =>
      match body x s with
      | Ok s' => for_each body xs' s'
      | Raise e => Raise e
      end
  end.

(** ** Values *)

(** An element of a draw or discard record: a tile number, or a string
    (a call notation such as [p383838] or a riichi discard such as [r60]),
    or [None]. *)
Inductive Entry : Type :=
  | Tile (t : Z)
  | Text (s : string)
  | Null.

#[global] Instance Entry_eq_dec : EqDecision Entry.
Proof. solve_decision. Defined.

(** [str(tile)] for an integer. *)
Definition str (z : Z) : string := NilZero.string_of_int (Z.to_int z).

(** [range(a, b)] *)
Definition range (a b : Z) : list Z := seqZ a (b - a).

(** [[x] * k]: a non-positive [k] gives the empty list. *)
Definition times {A : Type} (x : A) (k : Z) : list A := repeat x (Z.to_nat k).

(** [seq.index(x)]: the first position of [x]. *)
Fixpoint index_of (x : string) (l : list string) : option nat :=
  match l with
  | [] => None
  | y :: l' => if String.eqb y x then Some 0%nat else S <$> index_of x l'
  end.

(** [pool.remove(x)]: drops the first occurrence and raises [ValueError]
    when there is none. *)
Fixpoint list_remove (x : Z) (l : list Z) : Result (list Z) :=
  match l with
  | [] => Raise (ValueError "list.remove(x): x not in list")
  | y :: l' =>
      if Z.eqb y x then Ok l'
      else match list_remove x l' with
           | Ok r => Ok (y :: r)
           | Raise e => Raise e
           end
  end.

(** [x in pool] *)
Definition mem (x : Z) (l : list Z) : bool := existsb (Z.eqb x) l.

(** ** Configuration: the module-level variables *)

Record Config : Type := {
  RULE : gmap string Entry;
  DORA_INDICATOR : list Z;
  HERO_SEAT : string;
  HERO_HAND : list Z;
  HERO_LAST_DRAW : Z;
  HERO_LAST_DISCARD : Z;
  HERO_LAST_DISCARD_TURN : Z;
  HERO_LAST_ACTION : string;
  HERO_CALL_TILE : Z;
  HERO_CHI_TILES : list Z;
  HERO_PON_SOURCE : string;
  HERO_KAN_SOURCE : string;
  OTHER_PLAYERS_ACTIONS : gmap string (gmap string Z);
  DRAWS : gmap string (list Entry)
}.

Definition seats : list string := ["EAST"; "SOUTH"; "WEST"; "NORTH"]%string.

Definition positions : list string := ["HERO"; "SHIMO"; "TOIMEN"; "KAMI"]%string.

(** [seats.index(HERO_SEAT)] *)
Definition hero_index (cfg : Config) : Result nat :=
  from_option (ValueError "not in list") (index_of (HERO_SEAT cfg) seats).

(** ** Score changes *)

Definition calculate_score_changes (cfg : Config) : Result (list Z) :=
  hero_idx ← hero_index cfg;
  let shimo_idx := ((hero_idx + 1) mod 4)%nat in
  let dealer_idx := 0%nat in
  if Nat.eqb shimo_idx dealer_idx then
    mret [144000; -48000; -48000; -48000]
  else
    let changes := [0; 0; 0; 0] in
    let changes := <[shimo_idx := 96000]> changes in
    mret (fold_left
            (fun changes i =>
               if Nat.eqb i shimo_idx then changes
               else if Nat.eqb i dealer_idx then <[i := -48000]> changes
               else <[i := -24000]> changes)
            (seq 0 4) changes).

(** ** Call notation *)

Definition generate_call_notation
    (action : string) (tile : Z) (source : option string)
    (chi_tiles : option (list Z)) : Result string :=
  let t := str tile in
  if String.eqb action "CHI" then
    chi ← from_option (TypeError "NoneType + list") chi_tiles;
    let all_tiles := merge_sort Z.le (chi ++ [tile]) in
    mret (fold_left
            (fun result tt =>
               if Z.eqb tt tile then result +:+ "c" +:+ str tt
               else result +:+ str tt)
            all_tiles "")
  else if String.eqb action "PON" then
    if decide (source = Some "KAMI") then mret ("p" +:+ t +:+ t +:+ t)
    else if decide (source = Some "TOIMEN") then mret (t +:+ "p" +:+ t +:+ t)
    else mret (t +:+ t +:+ "p" +:+ t)
  else if String.eqb action "KAN" then
    if decide (source = Some "KAMI") then mret ("m" +:+ t +:+ t +:+ t +:+ t)
    else if decide (source = Some "TOIMEN") then mret (t +:+ "m" +:+ t +:+ t +:+ t)
    else mret (t +:+ t +:+ t +:+ "m" +:+ t)
  else if String.eqb action "ANKAN" then
    mret (t +:+ t +:+ t +:+ "a" +:+ t)
  else mret t.

(** ** Random draw generation *)

(** The 136 tiles: four copies of each suited tile and of each honor. *)
Definition full_pool : list Z :=
  let pool := [] in
  let pool :=
    fold_left
      (fun pool suit =>
         fold_left (fun pool num => pool ++ times (suit + num) 4) (range 1 10) pool)
      [10; 20; 30] pool in
  fold_left (fun pool honor => pool ++ times honor 4) (range 41 48) pool.

(** [if tile in pool: pool.remove(tile)] *)
Definition remove_if_present (tile : Z) (pool : list Z) : Result (list Z) :=
  if mem tile pool then list_remove tile pool else mret pool.

(** One copy of each plain five becomes a red five when [RULE.get("aka") == 1]. *)
Definition red_fives (cfg : Config) (pool : list Z) : Result (list Z) :=
  if bool_decide (RULE cfg !! "aka" = Some (Tile 1)) then
    for_each
      (fun '(normal, red) pool =>
         if mem normal pool then
           pool ← list_remove normal pool;
           mret (pool ++ [red])
         else mret pool)
      [(15, 51); (25, 52); (35, 53)] pool
  else mret pool.

(** The pool the draws start from: the full pool, red fives swapped in, and
    the hero's hand, the hero's last draw and the dora indicators taken out. *)
Definition starting_pool (cfg : Config) : Result (list Z) :=
  pool ← red_fives cfg full_pool;
  pool ← for_each remove_if_present (HERO_HAND cfg) pool;
  pool ← remove_if_present (HERO_LAST_DRAW cfg) pool;
  for_each remove_if_present (DORA_INDICATOR cfg) pool.

Definition terminals : gset Z := {[11; 19; 21; 29; 31; 39]}.
Definition honors : gset Z := list_to_set (range 41 48).
Definition twos_eights : gset Z := {[12; 18; 22; 28; 32; 38]}.
Definition threes_sevens : gset Z := {[13; 17; 23; 27; 33; 37]}.
Definition middle : gset Z := {[14; 15; 16; 24; 25; 26; 34; 35; 36; 51; 52; 53]}.

Definition get_allowed_tiles (turn : Z) : gset Z :=
  let allowed := terminals ∪ honors in
  let allowed := if 4 <=? turn then allowed ∪ twos_eights else allowed in
  let allowed := if 6 <=? turn then allowed ∪ threes_sevens else allowed in
  let allowed := if 7 <=? turn then allowed ∪ middle else allowed in
  allowed.

(** [random.choice(seq)] with the random index [r]. *)
Definition random_choice (r : nat) (l : list Z) : Result Z :=
  from_option (IndexError "Cannot choose from an empty sequence")
    (l !! (r mod length l)%nat).

(** Returns the drawn tile and the pool after [pool.remove(tile)]. *)
Definition draw_random_tile (r : nat) (pool : list Z) (turn : Z)
  : Result (Z * list Z) :=
  let allowed := get_allowed_tiles turn in
  let available := filter (fun t => t ∈ allowed) pool in
  let available := if bool_decide (available = []) then pool else available in
  if bool_decide (available = []) then Raise (ValueError "No tiles left in pool!")
  else
    tile ← random_choice r available;
    pool ← list_remove tile pool;
    mret (tile, pool).

(** The dict literal that maps absolute seat indices to relative positions. *)
Definition abs_to_pos (hero_idx : nat) : gmap nat string :=
  <[((hero_idx + 3) mod 4)%nat := "KAMI"%string]>
    (<[((hero_idx + 2) mod 4)%nat := "TOIMEN"%string]>
       (<[((hero_idx + 1) mod 4)%nat := "SHIMO"%string]>
          (<[hero_idx := "HERO"%string]> ∅))).

(** The local state of [generate_random_draws]; [calls] counts the calls of
    [random.choice] made so far. *)
Record GenState : Type := {
  pool : list Z;
  draws : gmap string (list Entry);
  player_turns : gmap string Z;
  calls : nat
}.

Definition lookup_key {V : Type} (d : gmap string V) (k : string) : Result V :=
  from_option (KeyError k) (d !! k).

Section Generator.

Variable rnd : nat -> nat.
Variable cfg : Config.

(** The body of the inner loop, for one seat. *)
Definition draw_step (hero_idx : nat) (seat_idx : nat) (st : GenState)
  : Result GenState :=
  let n := HERO_LAST_DISCARD_TURN cfg in
  pos ← from_option (KeyError "seat_idx") (abs_to_pos hero_idx !! seat_idx);
  old ← lookup_key (player_turns st) pos;
  let turns := <[pos := old + 1]> (player_turns st) in
  let turn := old + 1 in
  if String.eqb pos "HERO" && (turn =? n) then
    d ← lookup_key (draws st) "HERO";
    mret {| pool := pool st;
            draws := <["HERO"%string := d ++ [Tile (HERO_LAST_DRAW cfg)]]> (draws st);
            player_turns := turns;
            calls := calls st |}
  else
    '(tile, pool') ← draw_random_tile (rnd (calls st)) (pool st) turn;
    d ← lookup_key (draws st) pos;
    mret {| pool := pool';
            draws := <[pos := d ++ [Tile tile]]> (draws st);
            player_turns := turns;
            calls := S (calls st) |}.

(** One round: EAST, SOUTH, WEST, NORTH. *)
Definition draw_round (hero_idx : nat) (round_num : Z) (st : GenState)
  : Result GenState :=
  for_each (draw_step hero_idx) (seq 0 4) st.

(** Everything up to the end of the two loops. *)
Definition simulate_draws : Result GenState :=
  pool ← starting_pool cfg;
  let n := HERO_LAST_DISCARD_TURN cfg in
  hero_idx ← hero_index cfg;
  let draws : gmap string (list Entry) :=
    {[ "HERO"%string := []; "SHIMO"%string := [];
       "TOIMEN"%string := []; "KAMI"%string := [] ]} in
  let player_turns : gmap string Z :=
    {[ "HERO"%string := 0; "SHIMO"%string := 0;
       "TOIMEN"%string := 0; "KAMI"%string := 0 ]} in
  for_each (draw_round hero_idx) (range 0 n)
    {| pool := pool; draws := draws; player_turns := player_turns; calls := 0 |}.

Definition generate_random_draws : Result (gmap string (list Entry)) :=
  st ← simulate_draws;
  shimo ← lookup_key (draws st) "SHIMO";
  mret (<["SHIMO"%string := shimo ++ [Tile 45]]> (draws st)).

End Generator.

(** [all(test(x) for x in xs)]: stops at the first false value. *)
Fixpoint all_of {X : Type} (test : X -> Result bool) (xs : list X) : Result bool :=
  match xs with
  | [] => mret true
  | x :: xs' =>
      b ← test x;
      if b : bool then all_of test xs' else mret false
  end.

Definition get_draws (rnd : nat -> nat) (cfg : Config)
  : Result (gmap string (list Entry)) :=
  empty ← all_of
            (fun pos => d ← lookup_key (DRAWS cfg) pos; mret (bool_decide (d = [])))
            positions;
  if empty : bool then generate_random_draws rnd cfg else mret (DRAWS cfg).

(** ** Building the log *)

Definition build_other_player_discards
    (cfg : Config) (rel_pos : string) (num_discards : Z) : list Entry :=
  match OTHER_PLAYERS_ACTIONS cfg !! rel_pos with
  | None => times (Tile 60) num_discards
  | Some actions =>
      let riichi_turn := default 0 (actions !! "RIICHI_TURN") in
      if (riichi_turn <=? 0) || (num_discards <? riichi_turn) then
        times (Tile 60) num_discards
      else
        fold_left
          (fun discards turn =>
             if turn =? riichi_turn then discards ++ [Text "r60"]
             else discards ++ [Tile 60])
          (range 1 (num_discards + 1)) []
  end.

(** [draws[-1] = x] *)
Definition set_last (l : list Entry) (x : Entry) : Result (list Entry) :=
  match l with
  | [] => Raise (IndexError "list assignment index out of range")
  | _ :: _ => mret (<[pred (length l) := x]> l)
  end.

(** The call notation computed before the loop; [None] for DISCARD and
    RIICHI. *)
Definition hero_call_notation (cfg : Config) : Result Entry :=
  let action := HERO_LAST_ACTION cfg in
  if String.eqb action "CHI" then
    Text <$> generate_call_notation "CHI" (HERO_CALL_TILE cfg) None
               (Some (HERO_CHI_TILES cfg))
  else if String.eqb action "PON" then
    Text <$> generate_call_notation "PON" (HERO_CALL_TILE cfg)
               (Some (HERO_PON_SOURCE cfg)) None
  else if String.eqb action "KAN" then
    Text <$> generate_call_notation "KAN" (HERO_CALL_TILE cfg)
               (Some (HERO_KAN_SOURCE cfg)) None
  else if String.eqb action "ANKAN" then
    Text <$> generate_call_notation "ANKAN" (HERO_CALL_TILE cfg) None None
  else mret Null.

(** The hero's draws and discards (the [rel_pos == "HERO"] branch). *)
Definition hero_records (cfg : Config) (call_notation : Entry)
    (hero_draws : list Entry) : Result (list Entry * list Entry) :=
  let action := HERO_LAST_ACTION cfg in
  let draws := hero_draws in
  let filler := times (Tile 60) (HERO_LAST_DISCARD_TURN cfg - 1) in
  if String.eqb action "DISCARD" then
    mret (draws, filler ++ [Tile (HERO_LAST_DISCARD cfg)])
  else if String.eqb action "RIICHI" then
    mret (draws, filler ++ [Text ("r" +:+ str (HERO_LAST_DISCARD cfg))])
  else if String.eqb action "CHI" then
    draws ← set_last draws call_notation;
    mret (draws, filler ++ [Tile (HERO_LAST_DISCARD cfg)])
  else if String.eqb action "PON" then
    draws ← set_last draws call_notation;
    mret (draws, filler ++ [Tile (HERO_LAST_DISCARD cfg)])
  else if String.eqb action "KAN" || String.eqb action "ANKAN" then
    draws ← set_last draws call_notation;
    let draws := draws ++ [Tile (HERO_LAST_DRAW cfg)] in
    mret (draws, filler ++ [Tile (HERO_LAST_DISCARD cfg)])
  else
    mret (draws, filler ++ [Tile (HERO_LAST_DISCARD cfg)]).

(** The body of the loop over the four seats: appends [hand], [draws] and
    [discards] of seat [i] to [result]. *)
Definition player_triple (cfg : Config) (current_draws : gmap string (list Entry))
    (hero_idx : nat) (n : Z) (call_notation : Entry)
    (i : nat) (result : list (list Entry)) : Result (list (list Entry)) :=
  rel_pos ← from_option (KeyError "i") (abs_to_pos hero_idx !! i);
  let full_rounds := if (i <=? hero_idx)%nat then n else n - 1 in
  let default_hand := times (Tile 45) 13 in
  if String.eqb rel_pos "HERO" then
    hero_draws ← lookup_key current_draws "HERO";
    '(draws, discards) ← hero_records cfg call_notation hero_draws;
    mret (result ++ [Tile <$> HERO_HAND cfg; draws; discards])
  else if String.eqb rel_pos "SHIMO" then
    draws ← lookup_key current_draws "SHIMO";
    let discards := build_other_player_discards cfg rel_pos full_rounds in
    mret (result ++ [default_hand; draws; discards])
  else
    draws ← lookup_key current_draws rel_pos;
    let discards := build_other_player_discards cfg rel_pos full_rounds in
    mret (result ++ [default_hand; draws; discards]).

Definition build_player_data (rnd : nat -> nat) (cfg : Config)
  : Result (list (list Entry)) :=
  current_draws ← get_draws rnd cfg;
  hero_idx ← hero_index cfg;
  hero_draws ← lookup_key current_draws "HERO";
  let n := Z.of_nat (length hero_draws) in
  call_notation ← hero_call_notation cfg;
  for_each (player_triple cfg current_draws hero_idx n call_notation) (seq 0 4) [].

(** ** The configuration in the file *)

Definition default_config : Config :=
  {| RULE := {[ "disp"%string := Text "般南喰赤"; "aka"%string := Tile 1 ]};
     DORA_INDICATOR := [21];
     HERO_SEAT := "NORTH";
     HERO_HAND := [13; 14; 17; 18; 19; 25; 26; 27; 28; 28; 31; 31; 33];
     HERO_LAST_DRAW := 32;
     HERO_LAST_DISCARD := 31;
     HERO_LAST_DISCARD_TURN := 8;
     HERO_LAST_ACTION := "RIICHI";
     HERO_CALL_TILE := 0;
     HERO_CHI_TILES := [];
     HERO_PON_SOURCE := "KAMI";
     HERO_KAN_SOURCE := "KAMI";
     OTHER_PLAYERS_ACTIONS :=
       {[ "SHIMO"%string := {[ "RIICHI_TURN"%string := 5 ]};
          "TOIMEN"%string := {[ "RIICHI_TURN"%string := 0 ]};
          "KAMI"%string := {[ "RIICHI_TURN"%string := 0 ]} ]};
     DRAWS := {[ "HERO"%string := []; "SHIMO"%string := [];
                 "TOIMEN"%string := []; "KAMI"%string := [] ]} |}.

(** The configuration in the file with another hero seat, turn, action and
    called tile. *)
Definition config_with (seat : string) (turn : Z) (action : string)
    (call_tile : Z) : Config :=
  {| RULE := RULE default_config;
     DORA_INDICATOR := DORA_INDICATOR default_config;
     HERO_SEAT := seat;
     HERO_HAND := HERO_HAND default_config;
     HERO_LAST_DRAW := HERO_LAST_DRAW default_config;
     HERO_LAST_DISCARD := HERO_LAST_DISCARD default_config;
     HERO_LAST_DISCARD_TURN := turn;
     HERO_LAST_ACTION := action;
     HERO_CALL_TILE := call_tile;
     HERO_CHI_TILES := HERO_CHI_TILES default_config;
     HERO_PON_SOURCE := HERO_PON_SOURCE default_config;
     HERO_KAN_SOURCE := HERO_KAN_SOURCE default_config;
     OTHER_PLAYERS_ACTIONS := OTHER_PLAYERS_ACTIONS default_config;
     DRAWS := DRAWS default_config |}.

(** The configuration in the file with the draws given. *)
Definition config_with_draws (d : gmap string (list Entry)) : Config :=
  {| RULE := RULE default_config;
     DORA_INDICATOR := DORA_INDICATOR default_config;
     HERO_SEAT := HERO_SEAT default_config;
     HERO_HAND := HERO_HAND default_config;
     HERO_LAST_DRAW := HERO_LAST_DRAW default_config;
     HERO_LAST_DISCARD := HERO_LAST_DISCARD default_config;
     HERO_LAST_DISCARD_TURN := HERO_LAST_DISCARD_TURN default_config;
     HERO_LAST_ACTION := HERO_LAST_ACTION default_config;
     HERO_CALL_TILE := HERO_CALL_TILE default_config;
     HERO_CHI_TILES := HERO_CHI_TILES default_config;
     HERO_PON_SOURCE := HERO_PON_SOURCE default_config;
     HERO_KAN_SOURCE := HERO_KAN_SOURCE default_config;
     OTHER_PLAYERS_ACTIONS := OTHER_PLAYERS_ACTIONS default_config;
     DRAWS := d |}.

(** ** Notions the properties are stated with *)

(** [count] copies of the tile string [t] with [marker] written in front of
    copy number [slot] (counted from 1). *)
Definition with_marker (marker : string) (slot count : nat) (t : string) : string :=
  String.concat "" (repeat t (slot - 1))
  +:+ marker +:+ String.concat "" (repeat t (count - (slot - 1))).

(** The indices of [s], counted from [i], that hold the character [m]. *)
Fixpoint marker_positions (m : ascii) (s : string) (i : nat) : list nat :=
  match s with
  | EmptyString => []
  | String c s' =>
      if Ascii.eqb c m then i :: marker_positions m s' (S i)
      else marker_positions m s' (S i)
  end.

(** The marker characters; the decimal digits and the sign are none. *)
Definition is_marker (m : ascii) : Prop :=
  m = "c"%char \/ m = "p"%char \/ m = "m"%char \/ m = "a"%char.

(** The source seats of a call. *)
Definition sources : list string := ["KAMI"; "TOIMEN"; "SHIMO"]%string.

(** The number of characters a tile adds to the notation of a chi of [tile]. *)
Definition chi_piece (tile tt : Z) : nat :=
  if Z.eqb tt tile then S (String.length (str tt)) else String.length (str tt).

(** The suited tiles of the given ranks: manzu, pinzu and souzu. *)
Definition ranks_of (ranks : list Z) : gset Z :=
  list_to_set (suit ← [10; 20; 30]; (fun rank => suit + rank) <$> ranks).

Definition red_five_tiles : gset Z := {[51; 52; 53]}.

(** The riichi turn configured for a relative position: 0 when
    [OTHER_PLAYERS_ACTIONS] has no entry for it or the entry has no
    [RIICHI_TURN]. *)
Definition configured_riichi_turn (cfg : Config) (rel_pos : string) : Z :=
  match OTHER_PLAYERS_ACTIONS cfg !! rel_pos with
  | Some actions => default 0 (actions !! "RIICHI_TURN")
  | None => 0
  end.

(** The sum of a list of score changes. *)
Definition total (changes : list Z) : Z := foldr Z.add 0 changes.

(** How often a tile occurs in a list of tiles. *)
Definition count (x : Z) (l : list Z) : nat := count_occ Z.eq_dec l x.

(** The tiles fixed by the configuration. *)
Definition fixed_tiles (cfg : Config) : list Z :=
  HERO_HAND cfg ++ [HERO_LAST_DRAW cfg] ++ DORA_INDICATOR cfg.

(** The pool before the fixed tiles are taken out. *)
Definition dealt_pool (cfg : Config) : Result (list Z) := red_fives cfg full_pool.

(** The record of a relative position, empty when the key is missing. *)
Definition record_of (d : gmap string (list Entry)) (pos : string) : list Entry :=
  default [] (d !! pos).

(** The tiles a generator state holds in its records that came out of the
    pool: all of them but the last entry of the hero. *)
Definition pool_drawn (st : GenState) : list Entry :=
  removelast (record_of (draws st) "HERO")
  ++ record_of (draws st) "SHIMO"
  ++ record_of (draws st) "TOIMEN"
  ++ record_of (draws st) "KAMI".

(** The hero actions that put a call notation in the hero's last draw. *)
Definition is_call (action : string) : Prop :=
  action ∈ ["CHI"; "PON"; "KAN"; "ANKAN"]%string.

(** The hero's last discard: the fixed tile, as a riichi declaration when
    the action is RIICHI. *)
Definition hero_final_discard (cfg : Config) : Entry :=
  if String.eqb (HERO_LAST_ACTION cfg) "RIICHI"
  then Text ("r" +:+ str (HERO_LAST_DISCARD cfg))
  else Tile (HERO_LAST_DISCARD cfg).

(** The three entries of seat [i] in the player data, read off the seat's
    distance from the hero's seat [h]: the hero's own entries at distance
    0, and at distance 1, 2 and 3 the placeholder hand, the record and the
    discards of SHIMO, TOIMEN and KAMI.  [n] is the number of hero draws. *)
Definition expected_triple (cfg : Config) (cd : gmap string (list Entry))
    (h : nat) (n : Z) (hero_draws hero_discards : list Entry) (i : nat)
  : list (list Entry) :=
  let rounds := if (i <=? h)%nat then n else n - 1 in
  let other pos :=
    [repeat (Tile 45) 13; record_of cd pos;
     build_other_player_discards cfg pos rounds] in
  match ((i + 4 - h) mod 4)%nat with
  | 0%nat => [Tile <$> HERO_HAND cfg; hero_draws; hero_discards]
  | 1%nat => other "SHIMO"%string
  | 2%nat => other "TOIMEN"%string
  | _ => other "KAMI"%string
  end.

(** How many copies of tile [x] a full set has: four of each suited tile
    11-19, 21-29, 31-39 and of each honor 41-47; with red fives on, one
    copy of each plain five is a red five 51, 52, 53 instead. *)
Definition expected_count (aka : bool) (x : Z) : nat :=
  if (51 <=? x) && (x <=? 53) then (if aka then 1%nat else 0%nat)
  else if (41 <=? x) && (x <=? 47) then 4%nat
  else if (11 <=? x) && (x <=? 39) && negb (x mod 10 =? 0) then
    (if (x mod 10 =? 5) && aka then 3%nat else 4%nat)
  else 0%nat.

(** The tile numbers among the entries of a record. *)
Definition tile_values (l : list Entry) : list Z :=
  omap (fun e => match e with Tile t => Some t | _ => None end) l.

(** The state the two loops start from. *)
Definition initial_state (start : list Z) : GenState :=
  {| pool := start;
     draws := {[ "HERO"%string := []; "SHIMO"%string := [];
                 "TOIMEN"%string := []; "KAMI"%string := [] ]};
     player_turns := {[ "HERO"%string := 0; "SHIMO"%string := 0;
                        "TOIMEN"%string := 0; "KAMI"%string := 0 ]};
     calls := 0 |}.

(** All entries of the four records. *)
Definition all_records (d : gmap string (list Entry)) : list Entry :=
  record_of d "HERO" ++ record_of d "SHIMO"
  ++ record_of d "TOIMEN" ++ record_of d "KAMI".

(** One more draw opportunity for position [p]. *)
Definition bump (p : string) (cnt : string -> nat) : string -> nat :=
  fun q => if String.eqb q p then S (cnt q) else cnt q.

(** The invariant of the two loops of [generate_random_draws]: [start] is
    the pool the loops started from, [cnt] the number of draw opportunities
    each position has had, and [forced] holds the hero's last draw once it
    was appended. *)
Record GenInv (start : list Z) (forced : list Entry) (cnt : string -> nat)
    (st : GenState) : Prop := {
  inv_draws : forall p, p ∈ positions ->
                exists l, draws st !! p = Some l /\ length l = cnt p;
  inv_turns : forall p, p ∈ positions ->
                player_turns st !! p = Some (Z.of_nat (cnt p));
  inv_hero : exists l, draws st !! "HERO" = Some (l ++ forced);
  inv_perm : (Tile <$> start) ++ forced
             ≡ₚ (Tile <$> pool st) ++ all_records (draws st);
  inv_calls : (calls st + length forced
               = cnt "HERO" + cnt "SHIMO" + cnt "TOIMEN" + cnt "KAMI")%nat
}.

(** * Properties *)

(** ** Basic facts *)

Lemma string_length_app (s1 s2 : string) :
  String.length (s1 +:+ s2) = (String.length s1 + String.length s2)%nat.
Proof. induction s1 as [|c s1 IH]; simpl; [reflexivity | now rewrite IH]. Qed.

Lemma str_two_digits (t : Z) : 10 <= t <= 99 -> String.length (str t) = 2%nat.
Proof.
  intros Ht.
  assert (Hall : forallb (fun t => Nat.eqb (String.length (str t)) 2) (seqZ 10 90) = true)
    by (vm_compute; reflexivity).
  rewrite forallb_forall in Hall.
  apply Nat.eqb_eq, Hall, list_elem_of_In, elem_of_seqZ. lia.
Qed.

Lemma hero_index_seat (cfg : Config) :
  HERO_SEAT cfg ∈ seats ->
  exists h, hero_index cfg = Ok h /\ (h < 4)%nat /\ seats !! h = Some (HERO_SEAT cfg).
Proof.
  unfold hero_index, seats. intros Hin.
  repeat (apply elem_of_cons in Hin as [-> | Hin]);
    [exists 0%nat | exists 1%nat | exists 2%nat | exists 3%nat | ];
    [simpl; repeat split; (lia || reflexivity) .. | ].
  apply elem_of_nil in Hin. contradiction.
Qed.

(** ** Score changes *)

(** C9: for every hero seat, with [h] the index of that seat in the turn
    order and the winner the seat after it: a dealer winner (the hero sits
    NORTH) takes the same payment from each of the three other seats and
    receives three times that payment; a winner who is not the dealer takes
    from the dealer twice what each other loser pays; the four changes sum
    to zero. *)
Theorem score_changes_rule (cfg : Config) :
  HERO_SEAT cfg ∈ seats ->
  exists h changes pay,
    seats !! h = Some (HERO_SEAT cfg) /\
    hero_index cfg = Ok h /\
    calculate_score_changes cfg = Ok changes /\
    length changes = 4%nat /\
    0 < pay /\
    total changes = 0 /\
    let winner := ((h + 1) mod 4)%nat in
    (winner = 0%nat ->
       changes !! 0%nat = Some (3 * pay) /\
       forall i, (i < 4)%nat -> i <> winner -> changes !! i = Some (- pay)) /\
    (winner <> 0%nat ->
       changes !! winner = Some (4 * pay) /\
       changes !! 0%nat = Some (- (2 * pay)) /\
       forall i, (i < 4)%nat -> i <> winner -> i <> 0%nat ->
                 changes !! i = Some (- pay)).
Proof.
  intros Hin. unfold calculate_score_changes, hero_index, seats in *.
  repeat (apply elem_of_cons in Hin as [-> | Hin]);
    [exists 0%nat | exists 1%nat | exists 2%nat | exists 3%nat
     | apply elem_of_nil in Hin; contradiction];
    simpl; eexists; [exists 24000 | exists 24000 | exists 24000 | exists 48000];
    (split; [reflexivity |]);
    (split; [reflexivity |]); (split; [reflexivity |]);
    (split; [reflexivity |]); (split; [lia |]); (split; [reflexivity |]);
    (split; [intros Hw; try discriminate Hw | intros Hw; try (now contradiction Hw)]).
  all: repeat split; try reflexivity.
  all: intros i Hi; intros;
       destruct i as [|[|[|[|i]]]]; try reflexivity; try lia; congruence.
Qed.

Lemma score_changes_rule_witness :
  HERO_SEAT default_config = "NORTH"%string /\
  calculate_score_changes default_config
  = Ok [144000; -48000; -48000; -48000] /\
  exists h changes pay,
    seats !! h = Some (HERO_SEAT default_config) /\
    hero_index default_config = Ok h /\
    calculate_score_changes default_config = Ok changes /\
    length changes = 4%nat /\
    0 < pay /\
    total changes = 0 /\
    let winner := ((h + 1) mod 4)%nat in
    (winner = 0%nat ->
       changes !! 0%nat = Some (3 * pay) /\
       forall i, (i < 4)%nat -> i <> winner -> changes !! i = Some (- pay)) /\
    (winner <> 0%nat ->
       changes !! winner = Some (4 * pay) /\
       changes !! 0%nat = Some (- (2 * pay)) /\
       forall i, (i < 4)%nat -> i <> winner -> i <> 0%nat ->
                 changes !! i = Some (- pay)).
Proof.
  split; [reflexivity |]. split; [reflexivity |].
  apply (score_changes_rule default_config).
  vm_compute. do 3 right. left.
Defined.

(** ** Call notation *)

Section CallNotation.

Variable tile : Z.

Lemma chi_fold_length (l : list Z) (acc : string) :
  String.length
    (fold_left
       (fun result tt =>
          if Z.eqb tt tile then result +:+ "c" +:+ str tt else result +:+ str tt)
       l acc)
  = (String.length acc + sum_list_with (chi_piece tile) l)%nat.
Proof.
  revert acc. induction l as [|x l IH]; intros acc; simpl.
  - lia.
  - rewrite IH. unfold chi_piece at 2.
    destruct (Z.eqb x tile); rewrite !string_length_app; simpl; lia.
Qed.

Lemma chi_length (a b : Z) :
  10 <= tile <= 99 -> 10 <= a <= 99 -> 10 <= b <= 99 ->
  a <> tile -> b <> tile ->
  exists s, generate_call_notation "CHI" tile None (Some [a; b]) = Ok s
            /\ String.length s = 7%nat.
Proof.
  intros Ht Ha Hb Hat Hbt. unfold generate_call_notation. simpl.
  eexists. split; [reflexivity |].
  rewrite chi_fold_length, merge_sort_Permutation. simpl.
  unfold chi_piece. rewrite Z.eqb_refl.
  destruct (Z.eqb_spec a tile); [contradiction |].
  destruct (Z.eqb_spec b tile); [contradiction |].
  rewrite !str_two_digits by assumption. reflexivity.
Qed.

End CallNotation.

Lemma pon_length (tile : Z) (source : string) (chi : option (list Z)) :
  source ∈ sources ->
  exists s, generate_call_notation "PON" tile (Some source) chi = Ok s
            /\ String.length s = (3 * String.length (str tile) + 1)%nat.
Proof.
  intros Hs. unfold sources in Hs.
  repeat (apply elem_of_cons in Hs as [-> | Hs]);
    [ | | | apply elem_of_nil in Hs; contradiction];
    eexists; (split; [reflexivity |]);
    rewrite ?string_length_app; simpl; rewrite ?string_length_app; simpl; lia.
Qed.

Lemma kan_length (tile : Z) (source : string) (chi : option (list Z)) :
  source ∈ sources ->
  exists s, generate_call_notation "KAN" tile (Some source) chi = Ok s
            /\ String.length s = (4 * String.length (str tile) + 1)%nat.
Proof.
  intros Hs. unfold sources in Hs.
  repeat (apply elem_of_cons in Hs as [-> | Hs]);
    [ | | | apply elem_of_nil in Hs; contradiction];
    eexists; (split; [reflexivity |]);
    rewrite ?string_length_app; simpl; rewrite ?string_length_app; simpl; lia.
Qed.

Lemma ankan_length (tile : Z) (source : option string) (chi : option (list Z)) :
  exists s, generate_call_notation "ANKAN" tile source chi = Ok s
            /\ String.length s = (4 * String.length (str tile) + 1)%nat.
Proof.
  eexists; split; [reflexivity |].
  rewrite ?string_length_app; simpl; rewrite ?string_length_app; simpl; lia.
Qed.

(** C2, as the code has it: for a two-digit tile number the notation of a
    PON, and of a CHI with two two-digit hand tiles other than the called
    tile, has exactly 7 characters (six digits and the marker), and the
    notation of a KAN or an ANKAN has exactly 9 (eight digits and the
    marker), for each source seat. *)
Theorem call_notation_length (tile : Z) :
  10 <= tile <= 99 ->
  (forall source chi, source ∈ sources ->
     exists s, generate_call_notation "PON" tile (Some source) chi = Ok s
               /\ String.length s = 7%nat) /\
  (forall a b, 10 <= a <= 99 -> 10 <= b <= 99 -> a <> tile -> b <> tile ->
     exists s, generate_call_notation "CHI" tile None (Some [a; b]) = Ok s
               /\ String.length s = 7%nat) /\
  (forall source chi, source ∈ sources ->
     exists s, generate_call_notation "KAN" tile (Some source) chi = Ok s
               /\ String.length s = 9%nat) /\
  (forall source chi,
     exists s, generate_call_notation "ANKAN" tile source chi = Ok s
               /\ String.length s = 9%nat).
Proof.
  intros Ht. pose proof (str_two_digits tile Ht) as Hlen.
  split; [| split; [| split]].
  - intros source chi Hs.
    destruct (pon_length tile source chi Hs) as (s & E & L).
    exists s. split; [exact E | lia].
  - intros a b Ha Hb Hat Hbt. now apply chi_length.
  - intros source chi Hs.
    destruct (kan_length tile source chi Hs) as (s & E & L).
    exists s. split; [exact E | lia].
  - intros source chi.
    destruct (ankan_length tile source chi) as (s & E & L).
    exists s. split; [exact E | lia].
Qed.

Lemma call_notation_length_witness :
  10 <= 38 <= 99 /\
  (forall source chi, source ∈ sources ->
     exists s, generate_call_notation "PON" 38 (Some source) chi = Ok s
               /\ String.length s = 7%nat).
Proof.
  split; [lia |].
  apply (call_notation_length 38). lia.
Defined.

(** C2 as stated fails: the notation of a pon of 8s from kami is
    [p383838], which has 7 characters, not 6, and the notation of a kan of
    8s is [m38383838], which has 9, not 8. *)
Lemma call_notation_length_counterexample :
  generate_call_notation "PON" 38 (Some "KAMI"%string) None = Ok "p383838"%string /\
  String.length "p383838" <> 6%nat /\
  generate_call_notation "KAN" 38 (Some "KAMI"%string) None = Ok "m38383838"%string /\
  String.length "m38383838" <> 8%nat.
Proof. repeat split; (reflexivity || (simpl; lia)). Qed.

Lemma marker_positions_app (m : ascii) (s1 s2 : string) (i : nat) :
  marker_positions m (s1 +:+ s2) i
  = marker_positions m s1 i ++ marker_positions m s2 (i + String.length s1).
Proof.
  revert i. induction s1 as [|c s1 IH]; intros i; simpl.
  - now rewrite Nat.add_0_r.
  - rewrite IH, Nat.add_succ_r. simpl. now destruct (Ascii.eqb c m).
Qed.

Lemma marker_positions_uint (m : ascii) (d : Decimal.uint) (i : nat) :
  is_marker m -> marker_positions m (NilEmpty.string_of_uint d) i = [].
Proof.
  intros Hm. revert i.
  induction d; intros i; simpl; try reflexivity;
    destruct Hm as [-> | [-> | [-> | ->]]]; simpl; apply IHd.
Qed.

Lemma marker_positions_str (m : ascii) (z : Z) (i : nat) :
  is_marker m -> marker_positions m (str z) i = [].
Proof.
  intros Hm. unfold str, NilZero.string_of_int, NilZero.string_of_uint.
  assert (Hd : forall d j,
             marker_positions m
               match d with
               | Decimal.Nil => "0"%string
               | _ => NilEmpty.string_of_uint d
               end j = []).
  { intros d j. destruct d; try (now apply marker_positions_uint).
    destruct Hm as [-> | [-> | [-> | ->]]]; reflexivity. }
  destruct (Z.to_int z) as [d | d].
  - apply Hd.
  - simpl. rewrite Hd.
    destruct Hm as [-> | [-> | [-> | ->]]]; reflexivity.
Qed.

Lemma string_app_nil (s : string) : s +:+ "" = s.
Proof.
  induction s as [|c s IH]; [reflexivity |].
  change (String c (s +:+ "") = String c s). now rewrite IH.
Qed.

Lemma string_app_assoc (a b c : string) : (a +:+ b) +:+ c = a +:+ (b +:+ c).
Proof.
  induction a as [|x a IH]; [reflexivity |].
  change (String x ((a +:+ b) +:+ c) = String x (a +:+ (b +:+ c))).
  now rewrite IH.
Qed.

Lemma concat_repeat_S (t : string) (k : nat) :
  String.concat "" (repeat t (S k)) = t +:+ String.concat "" (repeat t k).
Proof.
  destruct k as [|k]; [| reflexivity].
  change (t = t +:+ ""). now rewrite string_app_nil.
Qed.

Lemma with_marker_positions (m : ascii) (slot count : nat) (z : Z) :
  is_marker m ->
  marker_positions m (with_marker (String m "") slot count (str z)) 0
  = [((slot - 1) * String.length (str z))%nat].
Proof.
  intros Hm. unfold with_marker.
  assert (Hrep : forall k i,
             marker_positions m (String.concat "" (repeat (str z) k)) i = []
             /\ String.length (String.concat "" (repeat (str z) k))
                = (k * String.length (str z))%nat).
  { induction k as [|k IH]; intros i; [split; reflexivity |].
    rewrite concat_repeat_S, marker_positions_app, string_length_app.
    destruct (IH (i + String.length (str z))%nat) as [IH1 IH2].
    rewrite marker_positions_str by assumption. split; [exact IH1 |].
    rewrite IH2. lia. }
  rewrite !marker_positions_app. simpl.
  rewrite Ascii.eqb_refl.
  destruct (Hrep (slot - 1)%nat 0%nat) as [-> ->].
  destruct (Hrep (count - (slot - 1))%nat
              ((slot - 1) * String.length (str z) + 1)%nat) as [-> _].
  reflexivity.
Qed.

(** C5: the marker [p] of a pon stands in front of the first, second or
    third of the three tile strings for the source KAMI, TOIMEN or SHIMO;
    the marker [m] of an open kan in front of the first, second or fourth
    of the four tile strings, and never in front of the third; the marker
    [a] of a closed kan in front of the fourth.  The marker occurs once,
    at the index that the slot gives. *)
Theorem call_notation_marker (tile : Z) :
  let t := str tile in
  (generate_call_notation "PON" tile (Some "KAMI"%string) None
     = Ok (with_marker "p" 1 3 t) /\
   generate_call_notation "PON" tile (Some "TOIMEN"%string) None
     = Ok (with_marker "p" 2 3 t) /\
   generate_call_notation "PON" tile (Some "SHIMO"%string) None
     = Ok (with_marker "p" 3 3 t)) /\
  (generate_call_notation "KAN" tile (Some "KAMI"%string) None
     = Ok (with_marker "m" 1 4 t) /\
   generate_call_notation "KAN" tile (Some "TOIMEN"%string) None
     = Ok (with_marker "m" 2 4 t) /\
   generate_call_notation "KAN" tile (Some "SHIMO"%string) None
     = Ok (with_marker "m" 4 4 t)) /\
  (forall source chi,
     generate_call_notation "KAN" tile source chi <> Ok (with_marker "m" 3 4 t)) /\
  (forall source chi,
     generate_call_notation "ANKAN" tile source chi = Ok (with_marker "a" 4 4 t)) /\
  (forall slot, marker_positions "p" (with_marker "p" slot 3 t) 0
                = [((slot - 1) * String.length t)%nat]) /\
  (forall slot, marker_positions "m" (with_marker "m" slot 4 t) 0
                = [((slot - 1) * String.length t)%nat]) /\
  marker_positions "a" (with_marker "a" 4 4 t) 0 = [(3 * String.length t)%nat].
Proof.
  intros t.
  assert (Hgen : forall action source chi s,
             generate_call_notation action tile source chi = Ok s ->
             forall r, r = s -> generate_call_notation action tile source chi = Ok r)
    by (intros; congruence).
  assert (Hshape : forall marker slot count,
             with_marker marker slot count t
             = String.concat "" (repeat t (slot - 1))
               +:+ marker +:+ String.concat "" (repeat t (count - (slot - 1))))
    by reflexivity.
  assert (Hpos : (0 < String.length t)%nat).
  { unfold t, str, NilZero.string_of_int, NilZero.string_of_uint.
    destruct (Z.to_int tile) as [d | d]; destruct d; simpl; lia. }
  assert (Hmark : forall m, is_marker m -> forall slot count,
             marker_positions m (with_marker (String m "") slot count t) 0
             = [((slot - 1) * String.length t)%nat]).
  { intros m Hm slot count. now apply with_marker_positions. }
  assert (Hp : is_marker "p") by (unfold is_marker; auto).
  assert (Hm : is_marker "m") by (unfold is_marker; auto).
  assert (Ha : is_marker "a") by (unfold is_marker; auto).
  split; [| split; [| split; [| split; [| split; [| split]]]]].
  - split; [| split]; (eapply Hgen; [reflexivity |]); rewrite Hshape;
      cbn [Nat.sub repeat]; rewrite ?concat_repeat_S;
      cbn [String.concat repeat];
      rewrite ?string_app_assoc, ?string_app_nil; reflexivity.
  - split; [| split]; (eapply Hgen; [reflexivity |]); rewrite Hshape;
      cbn [Nat.sub repeat]; rewrite ?concat_repeat_S;
      cbn [String.concat repeat];
      rewrite ?string_app_assoc, ?string_app_nil; reflexivity.
  - intros source chi Heq.
    assert (Hne : forall s, generate_call_notation "KAN" tile source chi = Ok s ->
                            marker_positions "m" s 0 <> [(2 * String.length t)%nat]).
    { intros s. unfold generate_call_notation.
      change (String.eqb "KAN" "CHI") with false.
      change (String.eqb "KAN" "PON") with false.
      change (String.eqb "KAN" "KAN") with true.
      cbv iota. fold t.
      repeat case_decide; intros [= <-];
        rewrite ?marker_positions_app; unfold t;
        rewrite ?marker_positions_str by assumption; fold t;
        cbn [marker_positions Ascii.eqb Bool.eqb app String.length];
        rewrite ?string_length_app; intros [= Hidx]; lia. }
    apply (Hne _ Heq). rewrite (Hmark "m"%char Hm 3%nat 4%nat). f_equal.
  - intros source chi. eapply Hgen; [reflexivity |]. rewrite Hshape.
    cbn [Nat.sub repeat]. rewrite ?concat_repeat_S.
    cbn [String.concat repeat].
    rewrite ?string_app_assoc, ?string_app_nil. reflexivity.
  - intros slot. apply (Hmark "p"%char Hp).
  - intros slot. apply (Hmark "m"%char Hm).
  - rewrite (Hmark "a"%char Ha 4%nat 4%nat). f_equal.
Qed.

(** ** Turn restrictions *)

Lemma tile_classes :
  terminals = ranks_of [1; 9] /\
  twos_eights = ranks_of [2; 8] /\
  threes_sevens = ranks_of [3; 7] /\
  middle = ranks_of [4; 5; 6] ∪ red_five_tiles.
Proof. repeat split; apply bool_decide_eq_true_1; vm_compute; reflexivity. Qed.

Lemma elem_of_honors (x : Z) : x ∈ honors <-> 41 <= x <= 47.
Proof.
  unfold honors, range. rewrite elem_of_list_to_set, elem_of_seqZ. lia.
Qed.

(** C3: the tiles allowed at personal turn [t] are the terminals and the
    seven honors, from turn 4 on also the ranks 2 and 8, from turn 6 on also
    the ranks 3 and 7, and from turn 7 on also the ranks 4, 5 and 6 and the
    red fives, of each suit; nothing else is allowed. *)
Theorem allowed_tiles_by_turn (t x : Z) :
  x ∈ get_allowed_tiles t <->
    x ∈ ranks_of [1; 9] \/ 41 <= x <= 47
    \/ (4 <= t /\ x ∈ ranks_of [2; 8])
    \/ (6 <= t /\ x ∈ ranks_of [3; 7])
    \/ (7 <= t /\ (x ∈ ranks_of [4; 5; 6] \/ x ∈ red_five_tiles)).
Proof.
  destruct tile_classes as (<- & <- & <- & Hmid).
  rewrite <- elem_of_honors, <- elem_of_union, <- Hmid.
  unfold get_allowed_tiles.
  destruct (Z.leb_spec 4 t), (Z.leb_spec 6 t), (Z.leb_spec 7 t);
    rewrite ?elem_of_union; intuition lia.
Qed.

(** ** Discards of the other players *)

Lemma discards_fold (T : Z) (l : list Z) (acc : list Entry) :
  fold_left
    (fun discards turn =>
       if turn =? T then discards ++ [Text "r60"] else discards ++ [Tile 60])
    l acc
  = acc ++ ((fun turn => if turn =? T then Text "r60" else Tile 60) <$> l).
Proof.
  revert acc. induction l as [|x l IH]; intros acc; simpl.
  - now rewrite app_nil_r.
  - rewrite IH. destruct (x =? T); now rewrite <- app_assoc.
Qed.

Lemma discards_unfold (cfg : Config) (rel_pos : string) (m : Z) :
  let T := configured_riichi_turn cfg rel_pos in
  build_other_player_discards cfg rel_pos m
  = if (T <=? 0) || (m <? T) then times (Tile 60) m
    else (fun turn => if turn =? T then Text "r60" else Tile 60) <$> seqZ 1 m.
Proof.
  unfold build_other_player_discards, configured_riichi_turn, range.
  destruct (OTHER_PLAYERS_ACTIONS cfg !! rel_pos) as [actions|]; [| reflexivity].
  destruct (_ || _); [reflexivity |].
  rewrite discards_fold. simpl. f_equal. f_equal. lia.
Qed.

(** C8: with the configured riichi turn [T] and [m] discards, when
    [1 <= T <= m] the list has length [m], its [T]-th entry is the riichi
    discard [r60] and every other entry is the filler tile 60; when
    [T <= 0] or [T > m] the list is [m] filler tiles. *)
Theorem other_player_discards (cfg : Config) (rel_pos : string) (m : Z) :
  let T := configured_riichi_turn cfg rel_pos in
  let discards := build_other_player_discards cfg rel_pos m in
  (1 <= T <= m ->
     length discards = Z.to_nat m /\
     discards !! Z.to_nat (T - 1) = Some (Text "r60") /\
     forall i, (i < Z.to_nat m)%nat -> i <> Z.to_nat (T - 1) ->
               discards !! i = Some (Tile 60)) /\
  (T <= 0 \/ m < T ->
     discards = repeat (Tile 60) (Z.to_nat m) /\ Text "r60" ∉ discards).
Proof.
  intros T discards. unfold discards. rewrite discards_unfold. fold T.
  split.
  - intros [H1 Hm].
    destruct (Z.leb_spec T 0); [lia |]. destruct (Z.ltb_spec m T); [lia |].
    simpl. rewrite length_fmap, length_seqZ.
    split; [reflexivity | split].
    + rewrite list_lookup_fmap, lookup_seqZ_lt by lia. simpl.
      replace (1 + Z.of_nat (Z.to_nat (T - 1))) with T by lia. now rewrite Z.eqb_refl.
    + intros i Hi Hne.
      rewrite list_lookup_fmap, lookup_seqZ_lt by lia. simpl.
      destruct (Z.eqb_spec (1 + Z.of_nat i) T); [lia | reflexivity].
  - intros HT.
    assert (Hb : (T <=? 0) || (m <? T) = true).
    { destruct HT; [destruct (Z.leb_spec T 0) | destruct (Z.ltb_spec m T)];
        try lia; auto using orb_true_r. }
    rewrite Hb. split; [reflexivity |].
    unfold times. intros Hin. apply list_elem_of_In, repeat_spec in Hin.
    discriminate Hin.
Qed.

Lemma other_player_discards_witness :
  (let T := configured_riichi_turn default_config "SHIMO" in
   let discards := build_other_player_discards default_config "SHIMO" 8 in
   T = 5 /\
   length discards = Z.to_nat 8 /\
   discards !! Z.to_nat (T - 1) = Some (Text "r60") /\
   (forall i, (i < Z.to_nat 8)%nat -> i <> Z.to_nat (T - 1) ->
              discards !! i = Some (Tile 60))) /\
  (let T := configured_riichi_turn default_config "KAMI" in
   let discards := build_other_player_discards default_config "KAMI" 8 in
   T = 0 /\ discards = repeat (Tile 60) (Z.to_nat 8) /\ Text "r60" ∉ discards).
Proof.
  split.
  - split; [vm_compute; reflexivity |].
    apply (other_player_discards default_config "SHIMO" 8).
    vm_compute. split; discriminate.
  - split; [vm_compute; reflexivity |].
    apply (other_player_discards default_config "KAMI" 8).
    left. vm_compute. discriminate.
Defined.

(** ** Configured draws *)

(** C10: when the four configured draw lists exist and at least one of
    them is not empty, [get_draws] returns [DRAWS] as it is, whatever the
    random source; when all four are empty it returns what
    [generate_random_draws] returns. *)
Theorem get_draws_configured (rnd : nat -> nat) (cfg : Config)
    (h s t k : list Entry) :
  DRAWS cfg !! "HERO" = Some h ->
  DRAWS cfg !! "SHIMO" = Some s ->
  DRAWS cfg !! "TOIMEN" = Some t ->
  DRAWS cfg !! "KAMI" = Some k ->
  (h <> [] \/ s <> [] \/ t <> [] \/ k <> [] ->
     get_draws rnd cfg = Ok (DRAWS cfg)) /\
  (h = [] /\ s = [] /\ t = [] /\ k = [] ->
     get_draws rnd cfg = generate_random_draws rnd cfg).
Proof.
  intros Hh Hs Ht Hk. unfold get_draws, positions, all_of, lookup_key.
  rewrite Hh, Hs, Ht, Hk. simpl. split.
  - intros Hne. repeat (case_bool_decide; simpl; try reflexivity).
    subst. destruct Hne as [? | [? | [? | ?]]]; congruence.
  - intros (-> & -> & -> & ->). reflexivity.
Qed.

Lemma get_draws_configured_witness :
  let d : gmap string (list Entry) :=
    {[ "HERO"%string := []; "SHIMO"%string := [Tile 45];
       "TOIMEN"%string := []; "KAMI"%string := [] ]} in
  get_draws (fun _ => 0%nat) (config_with_draws d) = Ok d /\
  get_draws (fun _ => 0%nat) default_config
  = generate_random_draws (fun _ => 0%nat) default_config.
Proof.
  intros d. split.
  - refine (proj1 (get_draws_configured (fun _ => 0%nat) (config_with_draws d)
                     [] [Tile 45] [] [] _ _ _ _) _);
      [vm_compute; reflexivity .. |].
    right. left. discriminate.
  - refine (proj2 (get_draws_configured (fun _ => 0%nat) default_config
                     [] [] [] [] _ _ _ _) _);
      [vm_compute; reflexivity .. |].
    repeat split.
Defined.

(** ** The filtered draw *)

Lemma list_remove_elem (x : Z) (l : list Z) :
  x ∈ l -> exists l', list_remove x l = Ok l' /\ l ≡ₚ x :: l'.
Proof.
  induction l as [|y l IH]; intros Hin.
  - apply elem_of_nil in Hin. contradiction.
  - simpl. destruct (Z.eqb_spec y x) as [-> | Hne].
    + exists l. split; reflexivity.
    + apply elem_of_cons in Hin as [-> | Hin]; [contradiction |].
      destruct (IH Hin) as (l' & -> & Hp). exists (y :: l'). split; [reflexivity |].
      rewrite Hp. apply Permutation_swap.
Qed.

Lemma list_remove_absent (x : Z) (l : list Z) :
  x ∉ l -> list_remove x l = Raise (ValueError "list.remove(x): x not in list").
Proof.
  induction l as [|y l IH]; intros Hin; [reflexivity |].
  simpl. apply not_elem_of_cons in Hin as [Hne Hin].
  destruct (Z.eqb_spec y x); [congruence |]. now rewrite IH.
Qed.

Lemma random_choice_elem (r : nat) (l : list Z) :
  l <> [] -> exists x, random_choice r l = Ok x /\ x ∈ l.
Proof.
  intros Hne. unfold random_choice.
  assert (Hlt : (r mod length l < length l)%nat).
  { apply Nat.mod_upper_bound. destruct l; [contradiction | simpl; lia]. }
  destruct (lookup_lt_is_Some_2 l _ Hlt) as [x Hx].
  exists x. rewrite Hx. split; [reflexivity |].
  eapply list_elem_of_lookup_2; eauto.
Qed.

(** Every tile of the list is what [random.choice] returns for some index. *)
Lemma random_choice_any (l : list Z) (x : Z) :
  x ∈ l -> exists r, random_choice r l = Ok x.
Proof.
  intros Hin. apply list_elem_of_lookup in Hin as [i Hi].
  exists i. unfold random_choice.
  rewrite Nat.mod_small by (eapply lookup_lt_Some; eauto).
  now rewrite Hi.
Qed.

(** C4: when some tile of the pool is allowed at the turn, the draw returns
    a tile chosen among the allowed tiles of the pool and removes it from
    the pool; when the pool is not empty and holds no allowed tile, it
    returns a tile chosen among the whole pool and removes it; when the
    pool is empty it raises [ValueError("No tiles left in pool!")]. *)
Theorem filtered_draw (r : nat) (pool : list Z) (turn : Z) :
  let allowed := get_allowed_tiles turn in
  ((exists x, x ∈ pool /\ x ∈ allowed) ->
     exists tile pool',
       draw_random_tile r pool turn = Ok (tile, pool') /\
       random_choice r (filter (fun t => t ∈ allowed) pool) = Ok tile /\
       tile ∈ allowed /\ tile ∈ pool /\
       list_remove tile pool = Ok pool' /\ pool ≡ₚ tile :: pool') /\
  (pool <> [] -> (forall x, x ∈ pool -> x ∉ allowed) ->
     exists tile pool',
       draw_random_tile r pool turn = Ok (tile, pool') /\
       random_choice r pool = Ok tile /\ tile ∈ pool /\
       list_remove tile pool = Ok pool' /\ pool ≡ₚ tile :: pool') /\
  (pool = [] ->
     draw_random_tile r pool turn = Raise (ValueError "No tiles left in pool!")).
Proof.
  intros allowed. unfold draw_random_tile. fold allowed.
  set (eligible := filter (fun t => t ∈ allowed) pool).
  split; [| split].
  - intros (x & Hx & Ha).
    assert (Hne : eligible <> []).
    { intros Heq. assert (Hin : x ∈ eligible) by (apply list_elem_of_filter; auto).
      rewrite Heq in Hin. now apply elem_of_nil in Hin. }
    rewrite (bool_decide_eq_false_2 _ Hne).
    rewrite (bool_decide_eq_false_2 _ Hne).
    destruct (random_choice_elem r eligible Hne) as (tile & Hc & Hin).
    apply list_elem_of_filter in Hin as [Hta Htp].
    destruct (list_remove_elem tile pool Htp) as (pool' & Hr & Hp).
    exists tile, pool'. rewrite Hc. simpl. rewrite Hr. simpl. auto 10.
  - intros Hne Hnone.
    assert (Heq : eligible = []).
    { destruct eligible as [|y l] eqn:E; [reflexivity |].
      assert (Hin : y ∈ eligible) by (rewrite E; left).
      apply list_elem_of_filter in Hin as [Hya Hyp]. now destruct (Hnone y). }
    rewrite (bool_decide_eq_true_2 _ Heq).
    rewrite (bool_decide_eq_false_2 _ Hne).
    destruct (random_choice_elem r pool Hne) as (tile & Hc & Hin).
    destruct (list_remove_elem tile pool Hin) as (pool' & Hr & Hp).
    exists tile, pool'. rewrite Hc. simpl. rewrite Hr. simpl. auto 10.
  - intros ->. reflexivity.
Qed.

Lemma filtered_draw_witness :
  (exists tile pool',
     draw_random_tile 0 [15; 11; 41] 1 = Ok (tile, pool') /\
     random_choice 0 (filter (fun t => t ∈ get_allowed_tiles 1) [15; 11; 41])
     = Ok tile /\
     tile ∈ get_allowed_tiles 1 /\ tile ∈ [15; 11; 41] /\
     list_remove tile [15; 11; 41] = Ok pool' /\ [15; 11; 41] ≡ₚ tile :: pool') /\
  (exists tile pool',
     draw_random_tile 0 [15; 14] 1 = Ok (tile, pool') /\
     random_choice 0 [15; 14] = Ok tile /\ tile ∈ [15; 14] /\
     list_remove tile [15; 14] = Ok pool' /\ [15; 14] ≡ₚ tile :: pool') /\
  draw_random_tile 0 [] 1 = Raise (ValueError "No tiles left in pool!").
Proof.
  split; [| split].
  - apply (filtered_draw 0 [15; 11; 41] 1).
    exists 11. split; [right; left |].
    refine (bool_decide_eq_true_1 (11 ∈ get_allowed_tiles 1) _).
    vm_compute. reflexivity.
  - apply (filtered_draw 0 [15; 14] 1); [discriminate |].
    intros x Hx.
    refine (bool_decide_eq_false_1 (x ∈ get_allowed_tiles 1) _).
    repeat (apply elem_of_cons in Hx as [-> | Hx]);
      [vm_compute; reflexivity .. | now apply elem_of_nil in Hx].
  - now apply (filtered_draw 0 [] 1).
Defined.

(** ** The draw loops *)

Lemma draw_random_tile_spec (r : nat) (pool : list Z) (turn : Z) :
  match draw_random_tile r pool turn with
  | Ok (tile, pool') => pool ≡ₚ tile :: pool'
  | Raise e => pool = [] /\ e = ValueError "No tiles left in pool!"
  end.
Proof.
  unfold draw_random_tile.
  set (eligible := filter (fun t => t ∈ get_allowed_tiles turn) pool).
  assert (Hsub : forall x, x ∈ eligible -> x ∈ pool).
  { intros x Hx. now apply list_elem_of_filter in Hx as [_ Hx]. }
  assert (Hfrom : forall l, l <> [] -> (forall x, x ∈ l -> x ∈ pool) ->
            match (tile ← random_choice r l;
                   pool' ← list_remove tile pool; mret (tile, pool')) with
            | Ok (tile, pool') => pool ≡ₚ tile :: pool'
            | Raise e => pool = [] /\ e = ValueError "No tiles left in pool!"
            end).
  { intros l Hne Hl. destruct (random_choice_elem r l Hne) as (tile & -> & Hin).
    simpl. destruct (list_remove_elem tile pool (Hl _ Hin)) as (pool' & -> & Hp).
    exact Hp. }
  destruct (bool_decide_reflect (eligible = [])) as [He | He].
  - destruct (bool_decide_reflect (pool = [])) as [Hp | Hp]; [now split |].
    apply Hfrom; auto.
  - rewrite bool_decide_eq_false_2 by exact He. apply Hfrom; auto.
Qed.

Lemma elem_of_positions (P : string -> Prop) :
  P "HERO"%string -> P "SHIMO"%string -> P "TOIMEN"%string -> P "KAMI"%string ->
  forall p, p ∈ positions -> P p.
Proof.
  intros H1 H2 H3 H4 p Hp. unfold positions in Hp.
  repeat (apply elem_of_cons in Hp as [-> | Hp]); try assumption.
  now apply elem_of_nil in Hp.
Qed.

Lemma all_records_insert (d : gmap string (list Entry)) (p : string)
    (l : list Entry) (x : Entry) :
  p ∈ positions -> d !! p = Some l ->
  all_records (<[p := l ++ [x]]> d) ≡ₚ x :: all_records d.
Proof.
  intros Hp. revert p Hp l.
  apply (elem_of_positions
           (fun p => forall l, d !! p = Some l ->
                       all_records (<[p := l ++ [x]]> d) ≡ₚ x :: all_records d));
    intros l Hl; unfold all_records, record_of;
    rewrite ?lookup_insert_eq, ?lookup_insert_ne by done; rewrite Hl; simpl;
    solve_Permutation.
Qed.

Lemma bump_total (p : string) (cnt : string -> nat) :
  p ∈ positions ->
  (bump p cnt "HERO" + bump p cnt "SHIMO" + bump p cnt "TOIMEN" + bump p cnt "KAMI"
   = S (cnt "HERO" + cnt "SHIMO" + cnt "TOIMEN" + cnt "KAMI"))%nat.
Proof.
  revert p. apply elem_of_positions; unfold bump; simpl; lia.
Qed.

Lemma GenInv_ext (start : list Z) (forced : list Entry)
    (cnt cnt' : string -> nat) (st : GenState) :
  (forall p, p ∈ positions -> cnt p = cnt' p) ->
  GenInv start forced cnt st -> GenInv start forced cnt' st.
Proof.
  intros Heq [Hd Ht Hh Hperm Hc]. constructor; auto.
  - intros p Hp. rewrite <- (Heq p Hp). auto.
  - intros p Hp. rewrite <- (Heq p Hp). auto.
  - rewrite <- !Heq; [exact Hc | ..]; unfold positions;
      repeat (first [left | right]).
Qed.

Lemma for_each_cons {S X : Type} (body : X -> S -> Result S)
    (x : X) (xs : list X) (s : S) :
  for_each body (x :: xs) s
  = match body x s with
    | Ok s' => for_each body xs s'
    | Raise e => Raise e
    end.
Proof. reflexivity. Qed.

Lemma for_each_app {S X : Type} (body : X -> S -> Result S)
    (xs ys : list X) (s : S) :
  for_each body (xs ++ ys) s
  = match for_each body xs s with
    | Ok s' => for_each body ys s'
    | Raise e => Raise e
    end.
Proof.
  revert s. induction xs as [|x xs IH]; intros s; simpl; [reflexivity |].
  destruct (body x s); [apply IH | reflexivity].
Qed.

Section Loops.

Variable rnd : nat -> nat.
Variable cfg : Config.
Variable start : list Z.

Lemma draw_step_random (forced : list Entry) (cnt : string -> nat)
    (st : GenState) (h i : nat) (p : string) :
  abs_to_pos h !! i = Some p -> p ∈ positions ->
  (p = "HERO"%string ->
     Z.of_nat (cnt "HERO") + 1 <> HERO_LAST_DISCARD_TURN cfg /\ forced = []) ->
  GenInv start forced cnt st ->
  match draw_step rnd cfg h i st with
  | Ok st' => GenInv start forced (bump p cnt) st'
              /\ length (pool st) = S (length (pool st'))
  | Raise e => pool st = [] /\ e = ValueError "No tiles left in pool!"
  end.
Proof.
  intros Hp Hin Hhero [Hd Ht Hh Hperm Hc].
  unfold draw_step, lookup_key. rewrite Hp. simpl.
  rewrite (Ht p Hin). simpl.
  assert (Hcond : String.eqb p "HERO"
                  && (Z.of_nat (cnt p) + 1 =? HERO_LAST_DISCARD_TURN cfg) = false).
  { destruct (String.eqb_spec p "HERO") as [-> | Hne]; [| reflexivity].
    simpl. apply Z.eqb_neq. now apply Hhero. }
  rewrite Hcond.
  pose proof (draw_random_tile_spec (rnd (calls st)) (pool st)
                (Z.of_nat (cnt p) + 1)) as Hdraw.
  destruct (draw_random_tile _ _ _) as [[tile pool'] | e]; simpl; [| exact Hdraw].
  destruct (Hd p Hin) as (l & Hl & Hlen). rewrite Hl. simpl.
  split; [| now rewrite Hdraw].
  constructor; simpl.
  - intros q Hq. unfold bump. destruct (String.eqb_spec q p) as [-> | Hne].
    + rewrite lookup_insert_eq. eexists; split; [reflexivity |].
      rewrite length_app. simpl. lia.
    + rewrite lookup_insert_ne by congruence. auto.
  - intros q Hq. unfold bump. destruct (String.eqb_spec q p) as [-> | Hne].
    + rewrite lookup_insert_eq. f_equal. lia.
    + rewrite lookup_insert_ne by congruence. auto.
  - destruct (decide (p = "HERO"%string)) as [-> | Hne].
    + destruct (Hhero eq_refl) as [_ ->]. rewrite lookup_insert_eq.
      eexists. now rewrite app_nil_r.
    + rewrite lookup_insert_ne by congruence. exact Hh.
  - rewrite (all_records_insert _ _ _ _ Hin Hl), Hperm, Hdraw.
    rewrite fmap_cons. solve_Permutation.
  - rewrite (bump_total p cnt Hin). lia.
Qed.

Lemma draw_step_forced (cnt : string -> nat) (st : GenState) (h i : nat) :
  abs_to_pos h !! i = Some "HERO"%string ->
  Z.of_nat (cnt "HERO") + 1 = HERO_LAST_DISCARD_TURN cfg ->
  GenInv start [] cnt st ->
  exists st',
    draw_step rnd cfg h i st = Ok st'
    /\ GenInv start [Tile (HERO_LAST_DRAW cfg)] (bump "HERO" cnt) st'
    /\ pool st' = pool st.
Proof.
  intros Hp Hn [Hd Ht Hh Hperm Hc].
  assert (Hin : "HERO"%string ∈ positions) by (unfold positions; left).
  unfold draw_step, lookup_key. rewrite Hp. simpl.
  rewrite (Ht _ Hin). simpl.
  rewrite (proj2 (Z.eqb_eq _ _) Hn).
  destruct (Hd _ Hin) as (l & Hl & Hlen). rewrite Hl. simpl.
  eexists. split; [reflexivity |]. split; [| reflexivity].
  constructor; simpl.
  - intros q Hq. unfold bump.
    destruct (String.eqb_spec q "HERO") as [-> | Hne].
    + rewrite lookup_insert_eq. eexists; split; [reflexivity |].
      rewrite length_app. simpl. lia.
    + rewrite lookup_insert_ne by congruence. auto.
  - intros q Hq. unfold bump.
    destruct (String.eqb_spec q "HERO") as [-> | Hne].
    + rewrite lookup_insert_eq. f_equal. lia.
    + rewrite lookup_insert_ne by congruence. auto.
  - rewrite lookup_insert_eq. eauto.
  - rewrite (all_records_insert _ _ _ _ Hin Hl).
    rewrite app_nil_r in Hperm. rewrite Hperm. solve_Permutation.
  - pose proof (bump_total "HERO" cnt Hin) as Hb. unfold bump in *.
    simpl in *. lia.
Qed.

(** One random step of a round, for the position [p] of the seat. *)
Ltac random_step p :=
  rewrite for_each_cons;
  lazymatch goal with
  | Inv : GenInv _ ?forced ?cnt ?st
    |- context [draw_step rnd cfg ?h ?i ?st] =>
      let S := fresh "Hstep" in
      let Hl := fresh "Hlen" in
      let J := fresh "Inv" in
      let st' := fresh "st" in
      let e := fresh "e" in
      assert (S := draw_step_random forced cnt st h i p eq_refl);
      specialize (S ltac:(unfold positions; set_solver));
      specialize (S ltac:(first [discriminate
                                | intros _; split;
                                  [unfold bump; simpl; lia | reflexivity]]));
      specialize (S Inv);
      destruct (draw_step rnd cfg h i st) as [st' | e];
      [destruct S as [J Hl]; clear Inv
      | destruct S as [S ->]; rewrite ?S in *; simpl in *;
        split; [lia | reflexivity]]
  end.

(** The fixed step of the hero in the last round. *)
Ltac forced_step :=
  rewrite for_each_cons;
  lazymatch goal with
  | Inv : GenInv _ [] ?cnt ?st
    |- context [draw_step rnd cfg ?h ?i ?st] =>
      let S := fresh "Hstep" in
      let Hl := fresh "Hlen" in
      let J := fresh "Inv" in
      let st' := fresh "st" in
      let E := fresh "E" in
      destruct (draw_step_forced cnt st h i eq_refl
                  ltac:(unfold bump; simpl; lia) Inv)
        as (st' & E & J & Hl);
      rewrite E; clear Inv; apply (f_equal length) in Hl
  end.

Ltac finish_round :=
  cbn [for_each];
  split;
  [ eapply GenInv_ext; [| eassumption];
    apply elem_of_positions; reflexivity
  | simpl in *; lia ].

Lemma draw_round_normal (h r : nat) (k : Z) (st : GenState) :
  (h < 4)%nat ->
  Z.of_nat r + 1 <> HERO_LAST_DISCARD_TURN cfg ->
  GenInv start [] (fun _ => r) st ->
  match draw_round rnd cfg h k st with
  | Ok st' => GenInv start [] (fun _ => S r) st'
              /\ length (pool st) = (4 + length (pool st'))%nat
  | Raise e => (length (pool st) < 4)%nat
               /\ e = ValueError "No tiles left in pool!"
  end.
Proof.
  intros Hh Hn Inv. unfold draw_round.
  change (seq 0 4) with [0; 1; 2; 3]%nat.
  destruct h as [|[|[|[|h]]]]; [| | | | lia].
  - random_step "HERO"%string. random_step "SHIMO"%string.
    random_step "TOIMEN"%string. random_step "KAMI"%string. finish_round.
  - random_step "KAMI"%string. random_step "HERO"%string.
    random_step "SHIMO"%string. random_step "TOIMEN"%string. finish_round.
  - random_step "TOIMEN"%string. random_step "KAMI"%string.
    random_step "HERO"%string. random_step "SHIMO"%string. finish_round.
  - random_step "SHIMO"%string. random_step "TOIMEN"%string.
    random_step "KAMI"%string. random_step "HERO"%string. finish_round.
Qed.

Lemma draw_round_last (h r : nat) (k : Z) (st : GenState) :
  (h < 4)%nat ->
  Z.of_nat r + 1 = HERO_LAST_DISCARD_TURN cfg ->
  GenInv start [] (fun _ => r) st ->
  match draw_round rnd cfg h k st with
  | Ok st' => GenInv start [Tile (HERO_LAST_DRAW cfg)] (fun _ => S r) st'
              /\ length (pool st) = (3 + length (pool st'))%nat
  | Raise e => (length (pool st) < 3)%nat
               /\ e = ValueError "No tiles left in pool!"
  end.
Proof.
  intros Hh Hn Inv. unfold draw_round.
  change (seq 0 4) with [0; 1; 2; 3]%nat.
  destruct h as [|[|[|[|h]]]]; [| | | | lia].
  - forced_step. random_step "SHIMO"%string.
    random_step "TOIMEN"%string. random_step "KAMI"%string. finish_round.
  - random_step "KAMI"%string. forced_step.
    random_step "SHIMO"%string. random_step "TOIMEN"%string. finish_round.
  - random_step "TOIMEN"%string. random_step "KAMI"%string.
    forced_step. random_step "SHIMO"%string. finish_round.
  - random_step "SHIMO"%string. random_step "TOIMEN"%string.
    random_step "KAMI"%string. forced_step. finish_round.
Qed.

Lemma draw_rounds_normal (h : nat) (l : list Z) :
  (h < 4)%nat ->
  forall (r : nat) (st : GenState),
    Z.of_nat (r + length l) < HERO_LAST_DISCARD_TURN cfg ->
    GenInv start [] (fun _ => r) st ->
    match for_each (draw_round rnd cfg h) l st with
    | Ok st' => GenInv start [] (fun _ => (r + length l)%nat) st'
                /\ length (pool st) = (4 * length l + length (pool st'))%nat
    | Raise e => (length (pool st) < 4 * length l)%nat
                 /\ e = ValueError "No tiles left in pool!"
    end.
Proof.
  intros Hh. induction l as [|k l IH]; intros r st Hn Inv.
  - simpl. split; [| lia]. eapply GenInv_ext; [| exact Inv].
    intros p _. simpl. lia.
  - rewrite for_each_cons. simpl length in *.
    assert (Hr : Z.of_nat r + 1 <> HERO_LAST_DISCARD_TURN cfg) by lia.
    pose proof (draw_round_normal h r k st Hh Hr Inv) as Hround.
    destruct (draw_round rnd cfg h k st) as [st1 | e].
    + destruct Hround as [Inv1 Hlen1].
      assert (Hn1 : Z.of_nat (S r + length l) < HERO_LAST_DISCARD_TURN cfg) by lia.
      specialize (IH (S r) st1 Hn1 Inv1).
      destruct (for_each _ l st1) as [st2 | e].
      * destruct IH as [Inv2 Hlen2]. split; [| lia].
        eapply GenInv_ext; [| exact Inv2]. intros p _. simpl. lia.
      * destruct IH as [Hlt ->]. split; [lia | reflexivity].
    + destruct Hround as [Hlt ->]. split; [lia | reflexivity].
Qed.

Lemma initial_invariant : GenInv start [] (fun _ => 0%nat) (initial_state start).
Proof.
  constructor; simpl.
  - apply elem_of_positions; eexists; split; reflexivity.
  - apply elem_of_positions; reflexivity.
  - exists []. reflexivity.
  - change (all_records _) with (@nil Entry). reflexivity.
  - reflexivity.
Qed.

(** The two loops, for a hero turn of at least 1: they end in a state
    with as many entries in every record as the hero turn says, the
    hero's last entry being the fixed draw, unless the pool runs out. *)
Lemma draw_loops (h : nat) :
  (h < 4)%nat ->
  1 <= HERO_LAST_DISCARD_TURN cfg ->
  let n := Z.to_nat (HERO_LAST_DISCARD_TURN cfg) in
  match for_each (draw_round rnd cfg h) (range 0 (HERO_LAST_DISCARD_TURN cfg))
          (initial_state start) with
  | Ok st => GenInv start [Tile (HERO_LAST_DRAW cfg)] (fun _ => n) st
             /\ length start = (4 * n - 1 + length (pool st))%nat
  | Raise e => (length start < 4 * n - 1)%nat
               /\ e = ValueError "No tiles left in pool!"
  end.
Proof.
  intros Hh Hn n. unfold range.
  replace (HERO_LAST_DISCARD_TURN cfg - 0) with (Z.of_nat (S (n - 1))) by lia.
  rewrite seqZ_S, for_each_app.
  pose proof (draw_rounds_normal h (seqZ 0 (Z.of_nat (n - 1))) Hh 0%nat
                (initial_state start)) as Hrounds.
  rewrite length_seqZ, Nat2Z.id in Hrounds.
  specialize (Hrounds ltac:(lia) initial_invariant). simpl pool in Hrounds.
  destruct (for_each _ (seqZ 0 (Z.of_nat (n - 1))) _) as [st1 | e].
  - destruct Hrounds as [Inv1 Hlen1]. rewrite for_each_cons.
    pose proof (draw_round_last h (n - 1) (0 + Z.of_nat (n - 1)) st1 Hh
                  ltac:(lia) Inv1) as Hlast.
    destruct (draw_round rnd cfg h _ st1) as [st2 | e].
    + destruct Hlast as [Inv2 Hlen2]. simpl. split; [| lia].
      eapply GenInv_ext; [| exact Inv2]. intros p _. simpl. lia.
    + destruct Hlast as [Hlt ->]. split; [lia | reflexivity].
  - destruct Hrounds as [Hlt ->]. split; [lia | reflexivity].
Qed.

End Loops.

Lemma count_remove (x : Z) (l l' : list Z) :
  l ≡ₚ x :: l' ->
  forall y, count y l' = (count y l - (if decide (y = x) then 1 else 0))%nat.
Proof.
  intros Hp y. unfold count.
  rewrite (proj1 (Permutation_count_occ Z.eq_dec _ _) Hp y). simpl.
  destruct (Z.eq_dec x y), (decide (y = x)); try congruence; lia.
Qed.

Lemma mem_elem_of (x : Z) (l : list Z) : mem x l = true <-> x ∈ l.
Proof.
  unfold mem. rewrite existsb_exists, list_elem_of_In. split.
  - intros (y & Hy & E). apply Z.eqb_eq in E. now subst.
  - intros Hx. exists x. split; [exact Hx | apply Z.eqb_refl].
Qed.

Lemma remove_if_present_spec (x : Z) (l : list Z) :
  exists l', remove_if_present x l = Ok l' /\
             forall y, count y l' = (count y l - count y [x])%nat.
Proof.
  unfold remove_if_present. destruct (mem x l) eqn:Hm.
  - apply mem_elem_of in Hm. destruct (list_remove_elem x l Hm) as (l' & -> & Hp).
    exists l'. split; [reflexivity |]. intros y.
    rewrite (count_remove x l l' Hp). unfold count. simpl.
    destruct (Z.eq_dec x y), (decide (y = x)); try congruence; lia.
  - exists l. split; [reflexivity |]. intros y. unfold count. simpl.
    destruct (Z.eq_dec x y) as [<- |]; [| lia].
    assert (Hnot : ~ In x l).
    { intros Hin. apply list_elem_of_In, mem_elem_of in Hin. congruence. }
    apply (count_occ_not_In Z.eq_dec) in Hnot. lia.
Qed.

Lemma remove_each_spec (xs : list Z) :
  forall l, exists l', for_each remove_if_present xs l = Ok l' /\
                       forall y, count y l' = (count y l - count y xs)%nat.
Proof.
  induction xs as [|x xs IH]; intros l.
  - exists l. split; [reflexivity |]. intros y. unfold count. simpl. lia.
  - simpl. destruct (remove_if_present_spec x l) as (l1 & -> & H1).
    destruct (IH l1) as (l2 & -> & H2). exists l2. split; [reflexivity |].
    intros y. rewrite H2, H1. unfold count. simpl.
    destruct (Z.eq_dec x y); lia.
Qed.

Lemma dealt_pool_ok (cfg : Config) :
  exists dealt, dealt_pool cfg = Ok dealt /\ length dealt = 136%nat.
Proof.
  unfold dealt_pool, red_fives.
  destruct (bool_decide _); eexists; (split; [vm_compute; reflexivity | reflexivity]).
Qed.

(** The pool the loops start from always exists: it is the dealt pool with
    the occurrences of the fixed tiles taken out, as far as it has them. *)
Lemma starting_pool_spec (cfg : Config) :
  exists dealt start,
    dealt_pool cfg = Ok dealt /\ starting_pool cfg = Ok start /\
    length dealt = 136%nat /\
    forall x, count x start = (count x dealt - count x (fixed_tiles cfg))%nat.
Proof.
  destruct (dealt_pool_ok cfg) as (dealt & Hd & Hlen).
  unfold starting_pool. unfold dealt_pool in Hd. rewrite Hd. simpl.
  destruct (remove_each_spec (HERO_HAND cfg) dealt) as (l1 & -> & H1). simpl.
  destruct (remove_if_present_spec (HERO_LAST_DRAW cfg) l1) as (l2 & -> & H2). simpl.
  destruct (remove_each_spec (DORA_INDICATOR cfg) l2) as (l3 & -> & H3).
  exists dealt, l3. repeat split; auto.
  intros x. rewrite H3, H2, H1. unfold fixed_tiles, count.
  rewrite !count_occ_app. lia.
Qed.

Lemma hero_index_bound (cfg : Config) (h : nat) :
  hero_index cfg = Ok h -> (h < 4)%nat /\ seats !! h = Some (HERO_SEAT cfg).
Proof.
  unfold hero_index, seats, index_of.
  destruct (String.eqb_spec "EAST" (HERO_SEAT cfg)) as [<- | _];
    [cbn; intros [= <-]; split; [lia | reflexivity] |].
  destruct (String.eqb_spec "SOUTH" (HERO_SEAT cfg)) as [<- | _];
    [cbn; intros [= <-]; split; [lia | reflexivity] |].
  destruct (String.eqb_spec "WEST" (HERO_SEAT cfg)) as [<- | _];
    [cbn; intros [= <-]; split; [lia | reflexivity] |].
  destruct (String.eqb_spec "NORTH" (HERO_SEAT cfg)) as [<- | _];
    [cbn; intros [= <-]; split; [lia | reflexivity] |].
  discriminate.
Qed.

(** What [simulate_draws] does, for a hero turn of at least 1. *)
Lemma simulate_draws_spec (rnd : nat -> nat) (cfg : Config) (h : nat)
    (start : list Z) :
  hero_index cfg = Ok h ->
  starting_pool cfg = Ok start ->
  1 <= HERO_LAST_DISCARD_TURN cfg ->
  let n := Z.to_nat (HERO_LAST_DISCARD_TURN cfg) in
  match simulate_draws rnd cfg with
  | Ok st => GenInv start [Tile (HERO_LAST_DRAW cfg)] (fun _ => n) st
             /\ length start = (4 * n - 1 + length (pool st))%nat
  | Raise e => (length start < 4 * n - 1)%nat
               /\ e = ValueError "No tiles left in pool!"
  end.
Proof.
  intros Hh Hs Hn n. unfold simulate_draws. rewrite Hs, Hh. simpl.
  apply hero_index_bound in Hh as [Hh _].
  exact (draw_loops rnd cfg start h Hh Hn).
Qed.

(** With a hero turn below 1 the loops do nothing. *)
Lemma simulate_draws_none (rnd : nat -> nat) (cfg : Config) (h : nat)
    (start : list Z) :
  hero_index cfg = Ok h ->
  starting_pool cfg = Ok start ->
  HERO_LAST_DISCARD_TURN cfg <= 0 ->
  simulate_draws rnd cfg = Ok (initial_state start).
Proof.
  intros Hh Hs Hn. unfold simulate_draws. rewrite Hs, Hh. simpl.
  unfold range. rewrite seqZ_nil by lia. reflexivity.
Qed.

Lemma simulate_draws_inputs (rnd : nat -> nat) (cfg : Config) (st : GenState) :
  simulate_draws rnd cfg = Ok st ->
  exists h start, hero_index cfg = Ok h /\ starting_pool cfg = Ok start.
Proof.
  unfold simulate_draws.
  destruct (starting_pool cfg) as [start |]; [| discriminate]. simpl.
  destruct (hero_index cfg) as [h |]; [| discriminate]. eauto.
Qed.

Lemma tile_values_fmap (l : list Z) : tile_values (Tile <$> l) = l.
Proof.
  induction l as [|x l IH]; [reflexivity |].
  change (x :: tile_values (Tile <$> l) = x :: l). now rewrite IH.
Qed.

Lemma tile_values_app (l1 l2 : list Entry) :
  tile_values (l1 ++ l2) = tile_values l1 ++ tile_values l2.
Proof. apply omap_app. Qed.

(** The records of a final state, and what came out of the pool. *)
Lemma GenInv_final (start : list Z) (x : Entry) (n : nat) (st : GenState) :
  GenInv start [x] (fun _ => n) st ->
  exists l s t k,
    draws st !! "HERO" = Some (l ++ [x]) /\
    draws st !! "SHIMO" = Some s /\
    draws st !! "TOIMEN" = Some t /\
    draws st !! "KAMI" = Some k /\
    S (length l) = n /\ length s = n /\ length t = n /\ length k = n /\
    pool_drawn st = l ++ s ++ t ++ k /\
    Tile <$> start ≡ₚ (Tile <$> pool st) ++ pool_drawn st /\
    S (calls st) = (4 * n)%nat.
Proof.
  intros [Hd Ht Hh Hperm Hc].
  destruct Hh as [l Hl].
  destruct (Hd "HERO"%string ltac:(unfold positions; set_solver)) as (l' & Hl' & Hlen).
  destruct (Hd "SHIMO"%string ltac:(unfold positions; set_solver)) as (s & Hs & Hls).
  destruct (Hd "TOIMEN"%string ltac:(unfold positions; set_solver)) as (t & Ht' & Hlt).
  destruct (Hd "KAMI"%string ltac:(unfold positions; set_solver)) as (k & Hk & Hlk).
  rewrite Hl in Hl'. injection Hl' as <-. rewrite length_app in Hlen. simpl in Hlen.
  assert (Hdrawn : pool_drawn st = l ++ s ++ t ++ k).
  { unfold pool_drawn, record_of. rewrite Hl, Hs, Ht', Hk. simpl.
    now rewrite removelast_last. }
  exists l, s, t, k. repeat split; try assumption; try lia.
  - rewrite Hdrawn. unfold all_records, record_of in Hperm.
    rewrite Hl, Hs, Ht', Hk in Hperm. simpl in Hperm.
    apply (Permutation_cons_inv (a := x)).
    etransitivity; [| etransitivity; [exact Hperm |]]; solve_Permutation.
  - simpl in Hc. lia.
Qed.

(** ** Pool accounting *)

(** C6: every successful draw takes exactly one tile out of the pool; and
    when the two loops of the generator end, the tiles they drew and the
    tiles left in the pool are together exactly the dealt pool with one
    occurrence taken out for each fixed tile (each tile of the hero's hand,
    the hero's last draw, each dora indicator) that the dealt pool has, so
    the number of draws is the number of tiles the pool lost. *)
Theorem pool_accounting (rnd : nat -> nat) (cfg : Config) (st : GenState) :
  simulate_draws rnd cfg = Ok st ->
  exists dealt start,
    dealt_pool cfg = Ok dealt /\ starting_pool cfg = Ok start /\
    (forall x, count x start = (count x dealt - count x (fixed_tiles cfg))%nat) /\
    Tile <$> start ≡ₚ (Tile <$> pool st) ++ pool_drawn st /\
    length (pool_drawn st) = calls st /\
    (length (pool st) + calls st)%nat = length start /\
    (forall x, (count x (tile_values (pool_drawn st)) + count x (pool st))%nat
               = (count x dealt - count x (fixed_tiles cfg))%nat) /\
    (forall r pool turn tile pool',
       draw_random_tile r pool turn = Ok (tile, pool') ->
       tile ∈ pool /\ length pool = S (length pool') /\
       forall y, count y pool' = (count y pool - count y [tile])%nat).
Proof.
  intros Hsim.
  destruct (simulate_draws_inputs rnd cfg st Hsim) as (h & start' & Hh & Hs').
  destruct (starting_pool_spec cfg) as (dealt & start & Hd & Hs & _ & Hcount).
  rewrite Hs in Hs'. injection Hs' as <-.
  assert (Hmain : Tile <$> start ≡ₚ (Tile <$> pool st) ++ pool_drawn st
                  /\ length (pool_drawn st) = calls st).
  { destruct (Z_le_gt_dec 1 (HERO_LAST_DISCARD_TURN cfg)) as [Hn | Hn].
    - pose proof (simulate_draws_spec rnd cfg h start Hh Hs Hn) as Hspec.
      rewrite Hsim in Hspec. destruct Hspec as [Inv _].
      destruct (GenInv_final _ _ _ _ Inv)
        as (l & s & t & k & _ & _ & _ & _ & Hl & Hls & Hlt & Hlk & Hdr & Hp & Hc).
      split; [exact Hp |]. rewrite Hdr, !length_app. lia.
    - rewrite (simulate_draws_none rnd cfg h start Hh Hs) in Hsim by lia.
      injection Hsim as <-. change (pool_drawn (initial_state start)) with (@nil Entry).
      simpl. now rewrite app_nil_r. }
  destruct Hmain as [Hperm Hcalls].
  assert (Htiles : start ≡ₚ pool st ++ tile_values (pool_drawn st)).
  { apply (omap_Permutation
             (fun e => match e with Tile t => Some t | _ => None end)) in Hperm.
    fold (tile_values (Tile <$> start)) in Hperm.
    fold (tile_values ((Tile <$> pool st) ++ pool_drawn st)) in Hperm.
    now rewrite tile_values_app, !tile_values_fmap in Hperm. }
  exists dealt, start. repeat split; try assumption.
  - apply Permutation_length in Hperm.
    rewrite length_app, !length_fmap in Hperm. lia.
  - intros x. rewrite <- Hcount. unfold count.
    rewrite (proj1 (Permutation_count_occ Z.eq_dec _ _) Htiles x), count_occ_app.
    lia.
  - pose proof (draw_random_tile_spec r pool0 turn) as Hdraw. rewrite H in Hdraw.
    rewrite Hdraw. left.
  - pose proof (draw_random_tile_spec r pool0 turn) as Hdraw. rewrite H in Hdraw.
    now rewrite Hdraw.
  - pose proof (draw_random_tile_spec r pool0 turn) as Hdraw. rewrite H in Hdraw.
    intros y. rewrite (count_remove tile pool0 pool' Hdraw). unfold count. simpl.
    destruct (Z.eq_dec tile y), (decide (y = tile)); try congruence; lia.
Qed.

Lemma pool_accounting_witness :
  exists st dealt start,
    simulate_draws (fun k => 7 * k + 3)%nat default_config = Ok st /\
    dealt_pool default_config = Ok dealt /\
    starting_pool default_config = Ok start /\
    length (pool_drawn st) = 31%nat /\ calls st = 31%nat /\
    length start = 121%nat /\ length (pool st) = 90%nat /\
    Tile <$> start ≡ₚ (Tile <$> pool st) ++ pool_drawn st.
Proof.
  destruct (simulate_draws (fun k => 7 * k + 3)%nat default_config) as [st | e] eqn:E;
    [| vm_compute in E; discriminate E].
  destruct (pool_accounting _ _ _ E)
    as (dealt & start & Hd & Hs & _ & Hp & Hl & Hc & _).
  exists st, dealt, start.
  assert (Hlen : length start = 121%nat).
  { vm_compute in Hs. injection Hs as <-. reflexivity. }
  assert (Hcalls : calls st = 31%nat).
  { vm_compute in E. injection E as <-. reflexivity. }
  repeat split; try assumption; lia.
Defined.

(** ** The draw records *)

(** What [generate_random_draws] returns for a hero turn of at least 1:
    every record has as many drawn entries as the hero turn says, the
    hero's last entry is the fixed draw, and the winner's record has the
    tile 45 after its drawn entries; it raises only when the pool runs out. *)
Lemma generate_random_draws_spec (rnd : nat -> nat) (cfg : Config) (h : nat)
    (start : list Z) :
  hero_index cfg = Ok h ->
  starting_pool cfg = Ok start ->
  1 <= HERO_LAST_DISCARD_TURN cfg ->
  let n := Z.to_nat (HERO_LAST_DISCARD_TURN cfg) in
  match generate_random_draws rnd cfg with
  | Ok d =>
      exists l s t k,
        d !! "HERO" = Some (l ++ [Tile (HERO_LAST_DRAW cfg)]) /\
        d !! "SHIMO" = Some (s ++ [Tile 45]) /\
        d !! "TOIMEN" = Some t /\
        d !! "KAMI" = Some k /\
        S (length l) = n /\ length s = n /\ length t = n /\ length k = n /\
        (4 * n - 1 <= length start)%nat
  | Raise e => (length start < 4 * n - 1)%nat
               /\ e = ValueError "No tiles left in pool!"
  end.
Proof.
  intros Hh Hs Hn n. unfold generate_random_draws.
  pose proof (simulate_draws_spec rnd cfg h start Hh Hs Hn) as Hspec.
  destruct (simulate_draws rnd cfg) as [st | e]; simpl; [| exact Hspec].
  destruct Hspec as [Inv Hlen].
  destruct (GenInv_final _ _ _ _ Inv)
    as (l & s & t & k & Hl & Hsh & Ht & Hk & Hll & Hls & Hlt & Hlk & _).
  unfold lookup_key. rewrite Hsh. simpl.
  exists l, s, t, k.
  rewrite lookup_insert_eq, !lookup_insert_ne by done.
  repeat split; try assumption. fold n in Hlen. lia.
Qed.

(** C1 at a hero seat that is not the last of the round: with the hero
    seated EAST and a hero turn of 8, the generator gives every position 8
    drawn entries, whatever the random source: TOIMEN (WEST) and KAMI
    (NORTH), whose seats follow the hero's, have 8 draws and not 7, and
    SHIMO (SOUTH) has 8 draws and then the tile 45, 9 entries and not 8. *)
Theorem draws_after_hero_seat (rnd : nat -> nat) :
  exists d,
    generate_random_draws rnd (config_with "EAST" 8 "RIICHI" 0) = Ok d /\
    length (record_of d "HERO") = 8%nat /\
    length (record_of d "SHIMO") = 9%nat /\
    length (record_of d "TOIMEN") = 8%nat /\
    length (record_of d "KAMI") = 8%nat /\
    List.last (record_of d "HERO") Null = Tile 32 /\
    List.last (record_of d "SHIMO") Null = Tile 45.
Proof.
  destruct (starting_pool (config_with "EAST" 8 "RIICHI" 0)) as [start | e] eqn:Hs;
    [| vm_compute in Hs; discriminate Hs].
  assert (Hlen : length start = 121%nat).
  { vm_compute in Hs. injection Hs as <-. reflexivity. }
  pose proof (generate_random_draws_spec rnd (config_with "EAST" 8 "RIICHI" 0)
                0%nat start eq_refl Hs ltac:(simpl; lia)) as Hspec.
  destruct (generate_random_draws rnd _) as [d | e].
  - destruct Hspec
      as (l & s & t & k & Hl & Hsh & Ht & Hk & Hll & Hls & Hlt & Hlk & _).
    exists d. unfold record_of. rewrite Hl, Hsh, Ht, Hk. simpl in *.
    rewrite !length_app, !last_last. simpl. repeat split; lia.
  - destruct Hspec as [Hlt _]. rewrite Hlen in Hlt. simpl in Hlt. lia.
Qed.

(** ** The hero's records *)

Lemma hero_call_notation_ok (cfg : Config) :
  exists cn, hero_call_notation cfg = Ok cn /\
             (is_call (HERO_LAST_ACTION cfg) -> exists s, cn = Text s).
Proof.
  unfold hero_call_notation, generate_call_notation, is_call.
  destruct (String.eqb_spec (HERO_LAST_ACTION cfg) "CHI") as [-> | H1];
    [eexists; split; [reflexivity | eauto] |].
  destruct (String.eqb_spec (HERO_LAST_ACTION cfg) "PON") as [-> | H2];
    [cbn; repeat case_decide; eexists; (split; [reflexivity | eauto]) |].
  destruct (String.eqb_spec (HERO_LAST_ACTION cfg) "KAN") as [-> | H3];
    [cbn; repeat case_decide; eexists; (split; [reflexivity | eauto]) |].
  destruct (String.eqb_spec (HERO_LAST_ACTION cfg) "ANKAN") as [-> | H4];
    [cbn; eexists; (split; [reflexivity | eauto]) |].
  eexists; split; [reflexivity |]. intros Hin.
  apply elem_of_cons in Hin as [E | Hin]; [congruence |].
  apply elem_of_cons in Hin as [E | Hin]; [congruence |].
  apply elem_of_cons in Hin as [E | Hin]; [congruence |].
  apply elem_of_cons in Hin as [E | Hin]; [congruence |].
  now apply elem_of_nil in Hin.
Qed.

Lemma set_last_spec (l : list Entry) (x : Entry) :
  l <> [] ->
  set_last l x = Ok (<[pred (length l) := x]> l) /\
  length (<[pred (length l) := x]> l) = length l /\
  last (<[pred (length l) := x]> l) = Some x /\
  forall i, i <> pred (length l) -> <[pred (length l) := x]> l !! i = l !! i.
Proof.
  intros Hne. split; [destruct l; [contradiction | reflexivity] |].
  split; [apply length_insert |]. split.
  - rewrite last_lookup, length_insert. apply list_lookup_insert_eq.
    destruct l; [contradiction | simpl; lia].
  - intros i Hi. now apply list_lookup_insert_ne.
Qed.

Lemma hero_records_spec (cfg : Config) (cn : Entry) (hd : list Entry) :
  (is_call (HERO_LAST_ACTION cfg) -> hd <> []) ->
  let action := HERO_LAST_ACTION cfg in
  let replaced := <[pred (length hd) := cn]> hd in
  exists draws,
    hero_records cfg cn hd
    = Ok (draws,
          repeat (Tile 60) (Z.to_nat (HERO_LAST_DISCARD_TURN cfg - 1))
          ++ [hero_final_discard cfg]) /\
    (action = "CHI"%string \/ action = "PON"%string -> draws = replaced) /\
    (action = "KAN"%string \/ action = "ANKAN"%string ->
       draws = replaced ++ [Tile (HERO_LAST_DRAW cfg)]) /\
    (~ is_call action -> draws = hd).
Proof.
  intros Hne action replaced. unfold hero_records, hero_final_discard, times.
  fold action. unfold is_call in *. fold action in Hne.
  assert (Hset : action ∈ ["CHI"; "PON"; "KAN"; "ANKAN"]%string ->
                 set_last hd cn = Ok replaced).
  { intros Hin. now apply set_last_spec, Hne. }
  destruct (String.eqb_spec action "DISCARD") as [E | N1].
  { rewrite E. cbn. eexists; split; [reflexivity |].
    repeat split; try (intros [? | ?]; congruence); reflexivity. }
  destruct (String.eqb_spec action "RIICHI") as [E | N2].
  { eexists; split; [reflexivity |].
    repeat split; try (intros [? | ?]; congruence); reflexivity. }
  destruct (String.eqb_spec action "CHI") as [E | N3].
  { rewrite Hset by (rewrite E; set_solver). cbn.
    eexists; split; [reflexivity |].
    repeat split; try (intros [? | ?]; congruence); try reflexivity.
    intros Hn. exfalso. apply Hn. rewrite E. set_solver. }
  destruct (String.eqb_spec action "PON") as [E | N4].
  { rewrite Hset by (rewrite E; set_solver). cbn.
    eexists; split; [reflexivity |].
    repeat split; try (intros [? | ?]; congruence); try reflexivity.
    intros Hn. exfalso. apply Hn. rewrite E. set_solver. }
  destruct (String.eqb_spec action "KAN") as [E | N5].
  { rewrite Hset by (rewrite E; set_solver). cbn.
    eexists; split; [reflexivity |].
    repeat split; try (intros [? | ?]; congruence); try reflexivity.
    intros Hn. exfalso. apply Hn. rewrite E. set_solver. }
  destruct (String.eqb_spec action "ANKAN") as [E | N6].
  { rewrite Hset by (rewrite E; set_solver). cbn.
    eexists; split; [reflexivity |].
    repeat split; try (intros [? | ?]; congruence); try reflexivity.
    intros Hn. exfalso. apply Hn. rewrite E. set_solver. }
  cbn. eexists; split; [reflexivity |].
  repeat split; try (intros [? | ?]; congruence); reflexivity.
Qed.

Lemma player_triple_hero (cfg : Config) (cd : gmap string (list Entry))
    (h i : nat) (n : Z) (cn : Entry) (res : list (list Entry))
    (hd draws discards : list Entry) :
  abs_to_pos h !! i = Some "HERO"%string ->
  cd !! "HERO" = Some hd ->
  hero_records cfg cn hd = Ok (draws, discards) ->
  player_triple cfg cd h n cn i res
  = Ok (res ++ [Tile <$> HERO_HAND cfg; draws; discards]).
Proof.
  intros Hp Hd Hr. unfold player_triple, lookup_key.
  rewrite Hp. cbn. rewrite Hd. cbn. rewrite Hr. reflexivity.
Qed.

Lemma player_triple_other (cfg : Config) (cd : gmap string (list Entry))
    (h i : nat) (n : Z) (cn : Entry) (res : list (list Entry))
    (p : string) (d : list Entry) :
  abs_to_pos h !! i = Some p ->
  p <> "HERO"%string ->
  cd !! p = Some d ->
  exists discards,
    player_triple cfg cd h n cn i res
    = Ok (res ++ [repeat (Tile 45) 13; d; discards]).
Proof.
  intros Hp Hne Hd. unfold player_triple, lookup_key.
  rewrite Hp. cbn [mbind Result_bind from_option].
  destruct (String.eqb_spec p "HERO") as [? | _]; [contradiction |].
  destruct (String.eqb_spec p "SHIMO") as [-> | _];
    rewrite Hd; eexists; reflexivity.
Qed.

Lemma hero_call_notation_spec (cfg : Config) (cn : Entry) :
  hero_call_notation cfg = Ok cn ->
  let action := HERO_LAST_ACTION cfg in
  let tile := HERO_CALL_TILE cfg in
  (action = "CHI"%string ->
     exists s, generate_call_notation "CHI" tile None (Some (HERO_CHI_TILES cfg))
               = Ok s /\ cn = Text s) /\
  (action = "PON"%string ->
     exists s, generate_call_notation "PON" tile (Some (HERO_PON_SOURCE cfg)) None
               = Ok s /\ cn = Text s) /\
  (action = "KAN"%string ->
     exists s, generate_call_notation "KAN" tile (Some (HERO_KAN_SOURCE cfg)) None
               = Ok s /\ cn = Text s) /\
  (action = "ANKAN"%string ->
     exists s, generate_call_notation "ANKAN" tile None None
               = Ok s /\ cn = Text s).
Proof.
  intros Hcn action tile. unfold hero_call_notation in Hcn.
  fold action tile in Hcn.
  assert (Hfmap : forall r : Result string,
             Text <$> r = Ok cn -> exists s, r = Ok s /\ cn = Text s).
  { intros [s | e]; [| discriminate]. intros [= <-]. eauto. }
  repeat split; intros E; rewrite E in Hcn; cbn in Hcn; now apply Hfmap.
Qed.

(** The step of the seat loop for the hero, and for another position. *)
Ltac triple_hero Hhero :=
  rewrite for_each_cons;
  match goal with
  | |- context [player_triple _ _ _ _ _ ?i ?r] => rewrite (Hhero i r eq_refl)
  end.

Ltac triple_other Hother Hd :=
  rewrite for_each_cons;
  match goal with
  | |- context [player_triple _ _ _ _ _ ?i ?r] =>
      let ds := fresh "ds" in
      destruct (Hother i r _ _ eq_refl ltac:(discriminate) Hd) as (ds & ->)
  end.

(** C7: with a hero turn of at least 1, the hero's discards are as many as
    the hero turn says, all the filler tile 60 but the last, which is the
    fixed discard tile, as a riichi declaration exactly when the action is
    RIICHI.  For CHI and PON the hero's last draw is replaced by the call
    notation and the number of draws stays; for KAN and ANKAN it is
    replaced and the fixed draw is appended as one more draw; for the
    other actions the draws are unchanged.  The call notation [cn] is the
    string the encoder returns for the action with the called tile and,
    for CHI, the hand tiles, for PON and KAN, the configured source. *)
Theorem hero_action_records (rnd : nat -> nat) (cfg : Config) (h : nat)
    (cd : gmap string (list Entry)) (hd sd td kd : list Entry) :
  let action := HERO_LAST_ACTION cfg in
  let turn := HERO_LAST_DISCARD_TURN cfg in
  hero_index cfg = Ok h ->
  get_draws rnd cfg = Ok cd ->
  cd !! "HERO" = Some hd -> cd !! "SHIMO" = Some sd ->
  cd !! "TOIMEN" = Some td -> cd !! "KAMI" = Some kd ->
  1 <= turn ->
  (is_call action -> hd <> []) ->
  exists res cn draws discards,
    build_player_data rnd cfg = Ok res /\
    hero_call_notation cfg = Ok cn /\
    res !! (3 * h)%nat = Some (Tile <$> HERO_HAND cfg) /\
    res !! (3 * h + 1)%nat = Some draws /\
    res !! (3 * h + 2)%nat = Some discards /\
    length discards = Z.to_nat turn /\
    (forall i, (i < Z.to_nat turn - 1)%nat -> discards !! i = Some (Tile 60)) /\
    last discards = Some (hero_final_discard cfg) /\
    (action = "RIICHI"%string ->
       hero_final_discard cfg = Text ("r" +:+ str (HERO_LAST_DISCARD cfg))) /\
    (action <> "RIICHI"%string ->
       hero_final_discard cfg = Tile (HERO_LAST_DISCARD cfg)) /\
    (action = "CHI"%string \/ action = "PON"%string ->
       (exists s, cn = Text s) /\
       draws = <[pred (length hd) := cn]> hd /\
       length draws = length hd /\ last draws = Some cn) /\
    (action = "KAN"%string \/ action = "ANKAN"%string ->
       (exists s, cn = Text s) /\
       draws = <[pred (length hd) := cn]> hd ++ [Tile (HERO_LAST_DRAW cfg)] /\
       length draws = S (length hd) /\
       draws !! pred (length hd) = Some cn /\
       last draws = Some (Tile (HERO_LAST_DRAW cfg))) /\
    (~ is_call action -> draws = hd) /\
    (action = "CHI"%string ->
       exists s,
         generate_call_notation "CHI" (HERO_CALL_TILE cfg) None
           (Some (HERO_CHI_TILES cfg)) = Ok s /\ cn = Text s) /\
    (action = "PON"%string ->
       exists s,
         generate_call_notation "PON" (HERO_CALL_TILE cfg)
           (Some (HERO_PON_SOURCE cfg)) None = Ok s /\ cn = Text s) /\
    (action = "KAN"%string ->
       exists s,
         generate_call_notation "KAN" (HERO_CALL_TILE cfg)
           (Some (HERO_KAN_SOURCE cfg)) None = Ok s /\ cn = Text s) /\
    (action = "ANKAN"%string ->
       exists s,
         generate_call_notation "ANKAN" (HERO_CALL_TILE cfg) None None = Ok s
         /\ cn = Text s).
Proof.
  intros action turn Hh Hget Hhd Hsd Htd Hkd Hturn Hne.
  destruct (hero_call_notation_ok cfg) as (cn & Hcn & Htext).
  destruct (hero_records_spec cfg cn hd Hne) as (draws & Hrec & Hchi & Hkan & Hno).
  fold action in Htext, Hchi, Hkan, Hno.
  set (discards := repeat (Tile 60) (Z.to_nat (HERO_LAST_DISCARD_TURN cfg - 1))
                   ++ [hero_final_discard cfg]) in *.
  assert (Hres : exists res,
             build_player_data rnd cfg = Ok res /\
             res !! (3 * h)%nat = Some (Tile <$> HERO_HAND cfg) /\
             res !! (3 * h + 1)%nat = Some draws /\
             res !! (3 * h + 2)%nat = Some discards).
  { unfold build_player_data, lookup_key. rewrite Hget. cbn [mbind Result_bind].
    rewrite Hh. cbn [mbind Result_bind]. rewrite Hhd. cbn [mbind Result_bind from_option].
    rewrite Hcn. cbn [mbind Result_bind].
    apply hero_index_bound in Hh as [Hlt _].
    set (n := Z.of_nat (length hd)).
    change (seq 0 4) with [0; 1; 2; 3]%nat.
    assert (Hhero : forall i res, abs_to_pos h !! i = Some "HERO"%string ->
               player_triple cfg cd h n cn i res
               = Ok (res ++ [Tile <$> HERO_HAND cfg; draws; discards])).
    { intros i res Hp. now apply (player_triple_hero cfg cd h i n cn res hd). }
    assert (Hother : forall i res p d, abs_to_pos h !! i = Some p ->
               p <> "HERO"%string -> cd !! p = Some d ->
               exists ds, player_triple cfg cd h n cn i res
                          = Ok (res ++ [repeat (Tile 45) 13; d; ds])).
    { intros i res p d. apply player_triple_other. }
    clearbody n. clear Hrec.
    destruct h as [|[|[|[|h]]]]; [| | | | lia].
    - triple_hero Hhero. triple_other Hother Hsd.
      triple_other Hother Htd. triple_other Hother Hkd.
      eexists. split; [reflexivity |]. repeat split; reflexivity.
    - triple_other Hother Hkd. triple_hero Hhero.
      triple_other Hother Hsd. triple_other Hother Htd.
      eexists. split; [reflexivity |]. repeat split; reflexivity.
    - triple_other Hother Htd. triple_other Hother Hkd.
      triple_hero Hhero. triple_other Hother Hsd.
      eexists. split; [reflexivity |]. repeat split; reflexivity.
    - triple_other Hother Hsd. triple_other Hother Htd.
      triple_other Hother Hkd. triple_hero Hhero.
      eexists. split; [reflexivity |]. repeat split; reflexivity. }
  destruct Hres as (res & Hbuild & H0 & H1 & H2).
  exists res, cn, draws, discards.
  assert (Hrep : length (repeat (Tile 60) (Z.to_nat (HERO_LAST_DISCARD_TURN cfg - 1)))
                 = (Z.to_nat turn - 1)%nat).
  { rewrite repeat_length. unfold turn. lia. }
  split; [exact Hbuild |]. split; [exact Hcn |].
  split; [exact H0 |]. split; [exact H1 |]. split; [exact H2 |].
  split; [| split; [| split; [| split; [| split; [| split; [| split]]]]]].
  - unfold discards. rewrite length_app, Hrep. simpl. unfold turn in *. lia.
  - intros i Hi. unfold discards. rewrite lookup_app_l by lia.
    rewrite <- Hrep in Hi.
    destruct (lookup_lt_is_Some_2 _ _ Hi) as [x Hx].
    rewrite Hx. f_equal.
    apply list_elem_of_lookup_2, list_elem_of_In, repeat_spec in Hx. exact Hx.
  - unfold discards. apply last_snoc.
  - intros E. unfold hero_final_discard. fold action. now rewrite E.
  - intros E. unfold hero_final_discard. fold action.
    now destruct (String.eqb_spec action "RIICHI").
  - intros Hc. rewrite (Hchi Hc).
    assert (Hcall : is_call action).
    { unfold is_call. destruct Hc as [-> | ->]; set_solver. }
    destruct (set_last_spec hd cn (Hne Hcall)) as (_ & Hl & Hlast & _).
    auto.
  - intros Hc. rewrite (Hkan Hc).
    assert (Hcall : is_call action).
    { unfold is_call. destruct Hc as [-> | ->]; set_solver. }
    destruct (set_last_spec hd cn (Hne Hcall)) as (_ & Hl & Hlast & _).
    split; [auto |]. split; [reflexivity |].
    split; [rewrite length_app, Hl; simpl; lia |].
    split; [| apply last_snoc].
    rewrite lookup_app_l by (rewrite Hl; destruct hd; [now destruct (Hne Hcall) | simpl; lia]).
    rewrite last_lookup, Hl in Hlast. exact Hlast.
  - split; [exact Hno |].
    exact (hero_call_notation_spec cfg cn Hcn).
Qed.

Lemma hero_action_records_witness :
  let rnd := (fun k => 7 * k + 3)%nat in
  let cfg := config_with "EAST" 3 "KAN" 28 in
  let hd := [Tile 11; Tile 44; Tile 32] in
  let cd : gmap string (list Entry) :=
    {[ "HERO"%string := hd;
       "SHIMO"%string := [Tile 29; Tile 46; Tile 42; Tile 45];
       "TOIMEN"%string := [Tile 39; Tile 19; Tile 44];
       "KAMI"%string := [Tile 42; Tile 31; Tile 47] ]} in
  get_draws rnd cfg = Ok cd /\
  exists res cn draws discards,
    build_player_data rnd cfg = Ok res /\
    hero_call_notation cfg = Ok cn /\
    cn = Text "m28282828" /\
    res !! 1%nat = Some draws /\
    res !! 2%nat = Some discards /\
    length discards = 3%nat /\
    last discards = Some (Tile 31) /\
    draws = [Tile 11; Tile 44; Text "m28282828"; Tile 32] /\
    length draws = 4%nat.
Proof.
  intros rnd cfg hd cd.
  assert (E : get_draws rnd cfg = Ok cd) by (vm_compute; reflexivity).
  split; [exact E |].
  destruct (hero_action_records rnd cfg 0%nat cd hd _ _ _
              eq_refl E eq_refl eq_refl eq_refl eq_refl ltac:(simpl; lia)
              ltac:(intros _; discriminate))
    as (res & cn & draws & discards & Hb & Hcn & _ & H1 & H2 & Hlen & _ & Hlast
        & _ & _ & _ & Hkan & _ & _ & _ & Hs & _).
  destruct (Hkan ltac:(left; reflexivity)) as (_ & Hd & Hl & _).
  destruct (Hs eq_refl) as (s & Hgen & Hcs).
  assert (Hm : s = "m28282828"%string).
  { vm_compute in Hgen. now injection Hgen as <-. }
  assert (Hc : cn = Text "m28282828") by now rewrite Hcs, Hm.
  exists res, cn, draws, discards.
  rewrite Hc in Hd. repeat split; assumption.
Defined.

(** * Further properties of the generator *)

(** ** Turn restrictions and the draw *)

Lemma allowed_tiles_mono (t t' : Z) :
  t <= t' -> get_allowed_tiles t ⊆ get_allowed_tiles t'.
Proof.
  intros Hle x. unfold get_allowed_tiles.
  destruct (Z.leb_spec 4 t), (Z.leb_spec 6 t), (Z.leb_spec 7 t),
    (Z.leb_spec 4 t'), (Z.leb_spec 6 t'), (Z.leb_spec 7 t');
    try lia; rewrite ?elem_of_union; tauto.
Qed.

Lemma filter_all (P : Z -> Prop) `{forall x, Decision (P x)} (l : list Z) :
  (forall x, x ∈ l -> P x) -> filter P l = l.
Proof.
  induction l as [|y l IH]; intros Hall; [reflexivity |].
  rewrite filter_cons_True by (apply Hall; left).
  f_equal. apply IH. intros x Hx. apply Hall. now right.
Qed.

(** X1: the allowed set only grows with the turn: a tile allowed at a turn
    is allowed at every later turn. *)
Theorem allowed_tiles_monotone (t t' x : Z) :
  t <= t' -> x ∈ get_allowed_tiles t -> x ∈ get_allowed_tiles t'.
Proof. intros Hle Hx. exact (allowed_tiles_mono t t' Hle x Hx). Qed.

Lemma allowed_tiles_monotone_witness :
  3 <= 7 /\ 11 ∈ get_allowed_tiles 3 /\ 11 ∈ get_allowed_tiles 7.
Proof.
  assert (H3 : 11 ∈ get_allowed_tiles 3).
  { refine (bool_decide_eq_true_1 (11 ∈ get_allowed_tiles 3) _).
    vm_compute. reflexivity. }
  split; [lia |]. split; [exact H3 |].
  apply (allowed_tiles_monotone 3 7 11); [lia | exact H3].
Defined.

Lemma dealt_pool_allowed (cfg : Config) (dealt : list Z) (x : Z) :
  dealt_pool cfg = Ok dealt -> x ∈ dealt -> x ∈ get_allowed_tiles 7.
Proof.
  unfold dealt_pool, red_fives. intros Hd Hx.
  assert (Hall : forall l : list Z,
             forallb (fun y => bool_decide (y ∈ get_allowed_tiles 7)) l = true ->
             x ∈ l -> x ∈ get_allowed_tiles 7).
  { intros l Hl Hin. rewrite forallb_forall in Hl.
    apply list_elem_of_In, Hl in Hin.
    exact (bool_decide_eq_true_1 _ Hin). }
  destruct (bool_decide _).
  - vm_compute in Hd. injection Hd as <-. revert Hx. apply Hall.
    vm_compute. reflexivity.
  - vm_compute in Hd. injection Hd as <-. revert Hx. apply Hall.
    vm_compute. reflexivity.
Qed.

(** X2: from turn 7 on the restriction excludes no tile of the dealt pool
    (red fives or not): on a pool of such tiles the filter keeps the whole
    pool, and the tile drawn is the one [random.choice] picks from the
    whole pool. *)
Theorem draw_unrestricted_from_turn_seven (cfg : Config) (dealt : list Z)
    (r : nat) (pool : list Z) (turn : Z) :
  dealt_pool cfg = Ok dealt ->
  7 <= turn ->
  (forall x, x ∈ pool -> x ∈ dealt) ->
  filter (fun t => t ∈ get_allowed_tiles turn) pool = pool /\
  forall tile pool',
    draw_random_tile r pool turn = Ok (tile, pool') ->
    random_choice r pool = Ok tile.
Proof.
  intros Hd Ht Hsub.
  assert (Hf : filter (fun t => t ∈ get_allowed_tiles turn) pool = pool).
  { apply filter_all. intros x Hx.
    apply (allowed_tiles_mono 7 turn Ht).
    eapply dealt_pool_allowed; eauto. }
  split; [exact Hf |].
  intros tile pool'. unfold draw_random_tile. rewrite Hf.
  destruct (bool_decide_reflect (pool = [])) as [-> | Hne]; [discriminate |].
  rewrite ?(bool_decide_eq_false_2 _ Hne).
  destruct (random_choice r pool) as [x | e]; [| discriminate].
  cbn. destruct (list_remove x pool); [| discriminate].
  cbn. now intros [= -> _].
Qed.

Lemma draw_unrestricted_from_turn_seven_witness :
  exists dealt,
    dealt_pool default_config = Ok dealt /\
    filter (fun t => t ∈ get_allowed_tiles 8) [15; 51; 11] = [15; 51; 11] /\
    forall tile pool',
      draw_random_tile 1 [15; 51; 11] 8 = Ok (tile, pool') ->
      random_choice 1 [15; 51; 11] = Ok tile.
Proof.
  destruct (dealt_pool default_config) as [dealt | e] eqn:Hd;
    [| vm_compute in Hd; discriminate Hd].
  exists dealt. split; [reflexivity |].
  apply (draw_unrestricted_from_turn_seven default_config dealt 1 [15; 51; 11] 8 Hd);
    [lia |].
  intros x Hx. vm_compute in Hd. injection Hd as <-.
  repeat (apply elem_of_cons in Hx as [-> | Hx]);
    [apply list_elem_of_In, (count_occ_In Z.eq_dec); vm_compute; lia .. |].
  now apply elem_of_nil in Hx.
Defined.

Lemma draw_reaches (pool : list Z) (turn x : Z) :
  x ∈ pool ->
  x ∈ get_allowed_tiles turn
  \/ filter (fun t => t ∈ get_allowed_tiles turn) pool = [] ->
  exists r pool',
    draw_random_tile r pool turn = Ok (x, pool') /\ list_remove x pool = Ok pool'.
Proof.
  intros Hx Hcase. unfold draw_random_tile.
  set (eligible := filter (fun t => t ∈ get_allowed_tiles turn) pool) in *.
  destruct (list_remove_elem x pool Hx) as (pool' & Hr & _).
  assert (Hpick : forall l, x ∈ l -> l <> [] ->
             exists r, (if bool_decide (l = []) then
                          Raise (ValueError "No tiles left in pool!")
                        else tile ← random_choice r l;
                             pool0 ← list_remove tile pool; mret (tile, pool0))
                       = Ok (x, pool')).
  { intros l Hl Hne. destruct (random_choice_any l x Hl) as [r Hc].
    exists r. rewrite (bool_decide_eq_false_2 _ Hne), Hc. cbn.
    now rewrite Hr. }
  assert (Hpool : pool <> []) by (intros ->; now apply elem_of_nil in Hx).
  destruct (bool_decide_reflect (eligible = [])) as [He | He].
  - destruct (Hpick pool Hx Hpool) as [r Hrun]. eauto.
  - destruct Hcase as [Ha | Hnil]; [| contradiction].
    assert (Hin : x ∈ eligible) by (apply list_elem_of_filter; auto).
    destruct (Hpick eligible Hin He) as [r Hrun]. eauto.
Qed.

(** X3: every tile the filter leaves available can be drawn: an allowed
    tile of the pool is drawn for some random index, and when the pool
    holds no allowed tile every tile of the pool is; the pool that results
    is the pool with the first occurrence of that tile removed. *)
Theorem draw_any_available (pool : list Z) (turn x : Z) :
  x ∈ pool ->
  (x ∈ get_allowed_tiles turn ->
     exists r pool',
       draw_random_tile r pool turn = Ok (x, pool')
       /\ list_remove x pool = Ok pool') /\
  ((forall y, y ∈ pool -> y ∉ get_allowed_tiles turn) ->
     exists r pool',
       draw_random_tile r pool turn = Ok (x, pool')
       /\ list_remove x pool = Ok pool').
Proof.
  intros Hx. split.
  - intros Ha. apply draw_reaches; auto.
  - intros Hnone. apply draw_reaches; [exact Hx | right].
    destruct (filter _ pool) as [|y l] eqn:E; [reflexivity |].
    assert (Hin : y ∈ filter (fun t => t ∈ get_allowed_tiles turn) pool)
      by (rewrite E; left).
    apply list_elem_of_filter in Hin as [Hya Hyp]. now destruct (Hnone y).
Qed.

Lemma draw_any_available_witness :
  exists r pool',
    draw_random_tile r [15; 11; 41] 1 = Ok (41, pool')
    /\ list_remove 41 [15; 11; 41] = Ok pool'.
Proof.
  refine (proj1 (draw_any_available [15; 11; 41] 1 41 _) _).
  - right. right. left.
  - refine (bool_decide_eq_true_1 (41 ∈ get_allowed_tiles 1) _).
    vm_compute. reflexivity.
Defined.

(** ** Call notation: order and fallbacks *)

Lemma chi_sorted (l l' : list Z) :
  Sorted Z.le l' -> l ≡ₚ l' -> merge_sort Z.le l = l'.
Proof.
  intros Hs Hp. apply (Sorted_unique Z.le).
  - apply Sorted_merge_sort. intros x y. lia.
  - exact Hs.
  - now rewrite merge_sort_Permutation.
Qed.

(** X4: the notation of a chi lists the three tiles in ascending order,
    whatever the order of the two hand tiles, with [c] in front of the
    called tile where it falls in that order: first when it is the lowest
    tile, in the middle when it lies between the hand tiles, last when it
    is the highest. *)
Theorem chi_notation_order (tile a b : Z) (source : option string) :
  a <= b -> a <> tile -> b <> tile ->
  generate_call_notation "CHI" tile source (Some [b; a])
  = generate_call_notation "CHI" tile source (Some [a; b]) /\
  (tile < a ->
     generate_call_notation "CHI" tile source (Some [a; b])
     = Ok ("c" +:+ str tile +:+ str a +:+ str b)) /\
  (a < tile < b ->
     generate_call_notation "CHI" tile source (Some [a; b])
     = Ok (str a +:+ "c" +:+ str tile +:+ str b)) /\
  (b < tile ->
     generate_call_notation "CHI" tile source (Some [a; b])
     = Ok (str a +:+ str b +:+ "c" +:+ str tile)).
Proof.
  intros Hab Ha Hb.
  assert (Hfa : Z.eqb a tile = false) by now apply Z.eqb_neq.
  assert (Hfb : Z.eqb b tile = false) by now apply Z.eqb_neq.
  assert (Hrun : forall chi l',
             Sorted Z.le l' -> chi ++ [tile] ≡ₚ l' ->
             generate_call_notation "CHI" tile source (Some chi)
             = Ok (fold_left
                     (fun result tt =>
                        if Z.eqb tt tile then result +:+ "c" +:+ str tt
                        else result +:+ str tt) l' "")).
  { intros chi l' Hs Hp. unfold generate_call_notation.
    change (String.eqb "CHI" "CHI") with true. cbn.
    now rewrite (chi_sorted _ _ Hs Hp). }
  assert (Hform : forall chi, chi ≡ₚ [a; b] ->
             (tile < a ->
                generate_call_notation "CHI" tile source (Some chi)
                = Ok ("c" +:+ str tile +:+ str a +:+ str b)) /\
             (a < tile < b ->
                generate_call_notation "CHI" tile source (Some chi)
                = Ok (str a +:+ "c" +:+ str tile +:+ str b)) /\
             (b < tile ->
                generate_call_notation "CHI" tile source (Some chi)
                = Ok (str a +:+ str b +:+ "c" +:+ str tile))).
  { intros chi Hchi. split; [| split]; intros Hlt.
    - rewrite (Hrun chi [tile; a; b]).
      + cbn. rewrite Z.eqb_refl, Hfa, Hfb.
        now rewrite ?string_app_assoc.
      + repeat constructor; lia.
      + rewrite Hchi. solve_Permutation.
    - rewrite (Hrun chi [a; tile; b]).
      + cbn. rewrite Z.eqb_refl, Hfa, Hfb.
        now rewrite ?string_app_assoc.
      + repeat constructor; lia.
      + rewrite Hchi. solve_Permutation.
    - rewrite (Hrun chi [a; b; tile]).
      + cbn. rewrite Z.eqb_refl, Hfa, Hfb.
        now rewrite ?string_app_assoc.
      + repeat constructor; lia.
      + rewrite Hchi. solve_Permutation. }
  split; [| now apply Hform].
  destruct (Hform [b; a] ltac:(apply Permutation_swap)) as (H1 & H2 & H3).
  destruct (Hform [a; b] ltac:(reflexivity)) as (H1' & H2' & H3').
  destruct (Z_lt_ge_dec tile a) as [Hlt | Hge]; [now rewrite H1, H1' |].
  destruct (Z_lt_ge_dec b tile) as [Hlt | Hge']; [now rewrite H3, H3' |].
  assert (Hmid : a < tile < b) by lia. now rewrite H2, H2'.
Qed.

Lemma chi_notation_order_witness :
  generate_call_notation "CHI" 12 None (Some [13; 11])
  = generate_call_notation "CHI" 12 None (Some [11; 13]) /\
  generate_call_notation "CHI" 12 None (Some [11; 13]) = Ok "11c1213"%string.
Proof.
  destruct (chi_notation_order 12 11 13 None) as (Hswap & _ & Hmid & _);
    try lia.
  split; [exact Hswap |]. rewrite Hmid by lia. reflexivity.
Defined.

(** X5: what the encoder does outside its documented inputs: a pon or an
    open kan whose source is neither KAMI nor TOIMEN (any other string, or
    none) is encoded as from SHIMO; an action that is none of the four
    calls gives the plain tile number; a chi without hand tiles raises
    [TypeError]. *)
Theorem call_notation_fallbacks (tile : Z) (source : option string)
    (chi : option (list Z)) :
  (source <> Some "KAMI"%string -> source <> Some "TOIMEN"%string ->
     generate_call_notation "PON" tile source chi
     = generate_call_notation "PON" tile (Some "SHIMO"%string) chi
     /\ generate_call_notation "KAN" tile source chi
        = generate_call_notation "KAN" tile (Some "SHIMO"%string) chi) /\
  (forall action, ~ is_call action ->
     generate_call_notation action tile source chi = Ok (str tile)) /\
  generate_call_notation "CHI" tile source None
  = Raise (TypeError "NoneType + list").
Proof.
  split; [| split].
  - intros H1 H2. unfold generate_call_notation.
    change (String.eqb "PON" "CHI") with false.
    change (String.eqb "PON" "PON") with true.
    change (String.eqb "KAN" "CHI") with false.
    change (String.eqb "KAN" "PON") with false.
    change (String.eqb "KAN" "KAN") with true.
    cbv iota. repeat case_decide; try congruence. split; reflexivity.
  - intros action Hcall. unfold generate_call_notation, is_call in *.
    destruct (String.eqb_spec action "CHI") as [-> | _];
      [exfalso; apply Hcall; set_solver |].
    destruct (String.eqb_spec action "PON") as [-> | _];
      [exfalso; apply Hcall; set_solver |].
    destruct (String.eqb_spec action "KAN") as [-> | _];
      [exfalso; apply Hcall; set_solver |].
    destruct (String.eqb_spec action "ANKAN") as [-> | _];
      [exfalso; apply Hcall; set_solver |].
    reflexivity.
  - reflexivity.
Qed.

Lemma call_notation_fallbacks_witness :
  generate_call_notation "PON" 38 (Some "EAST"%string) None
  = generate_call_notation "PON" 38 (Some "SHIMO"%string) None /\
  generate_call_notation "RIICHI" 38 None None = Ok (str 38).
Proof.
  destruct (call_notation_fallbacks 38 (Some "EAST"%string) None) as (Hs & _).
  destruct (call_notation_fallbacks 38 None None) as (_ & Ha & _).
  split.
  - apply Hs; discriminate.
  - apply Ha. unfold is_call. intros Hin.
    repeat (apply elem_of_cons in Hin as [Hin | Hin]; [discriminate Hin |]).
    now apply elem_of_nil in Hin.
Defined.

(** ** Missing keys and an unknown seat *)

Lemma all_of_empty_prefix (D : gmap string (list Entry)) (before rest : list string) :
  (forall q, q ∈ before -> D !! q = Some []) ->
  all_of (fun pos => d ← lookup_key D pos; mret (bool_decide (d = [])))
    (before ++ rest)
  = all_of (fun pos => d ← lookup_key D pos; mret (bool_decide (d = []))) rest.
Proof.
  set (test := fun pos => d ← lookup_key D pos; mret (bool_decide (d = []))).
  induction before as [|q before IH]; intros Hall; [reflexivity |].
  change (all_of test ((q :: before) ++ rest))
    with (b ← test q; if b : bool then all_of test (before ++ rest) else mret false).
  assert (Hq : test q = Ok true).
  { unfold test, lookup_key. now rewrite (Hall q) by left. }
  rewrite Hq. cbn. apply IH. intros q' Hq'. apply Hall. now right.
Qed.

Lemma all_of_cons {X : Type} (test : X -> Result bool) (x : X) (xs : list X) :
  all_of test (x :: xs)
  = (b ← test x; if b : bool then all_of test xs else mret false).
Proof. reflexivity. Qed.

(** X6: [get_draws] looks at the four lists in the order HERO, SHIMO,
    TOIMEN, KAMI and stops at the first that is not empty.  When the lists
    before a position are all empty and the position has no key in [DRAWS],
    it raises [KeyError] for that position; when the position has a list
    that is not empty, it returns [DRAWS] without looking at the positions
    after it, whether their keys exist or not. *)
Theorem get_draws_first_key (rnd : nat -> nat) (cfg : Config)
    (before after : list string) (p : string) :
  positions = before ++ p :: after ->
  (forall q, q ∈ before -> DRAWS cfg !! q = Some []) ->
  (DRAWS cfg !! p = None -> get_draws rnd cfg = Raise (KeyError p)) /\
  (forall l, DRAWS cfg !! p = Some l -> l <> [] ->
             get_draws rnd cfg = Ok (DRAWS cfg)).
Proof.
  intros Hpos Hbefore. unfold get_draws. rewrite Hpos.
  rewrite (all_of_empty_prefix _ _ _ Hbefore). split.
  - intros Hnone. rewrite all_of_cons. unfold lookup_key.
    now rewrite Hnone.
  - intros l Hl Hne. rewrite all_of_cons. unfold lookup_key.
    rewrite Hl. cbn. now rewrite (bool_decide_eq_false_2 _ Hne).
Qed.

Lemma get_draws_first_key_witness :
  let d : gmap string (list Entry) :=
    {[ "HERO"%string := []; "SHIMO"%string := [Tile 45] ]} in
  get_draws (fun _ => 0%nat) (config_with_draws d) = Ok d /\
  get_draws (fun _ => 0%nat) (config_with_draws {[ "HERO"%string := [] ]})
  = Raise (KeyError "SHIMO").
Proof.
  intros d. split.
  - refine (proj2 (get_draws_first_key (fun _ => 0%nat) (config_with_draws d)
                     ["HERO"%string] ["TOIMEN"; "KAMI"]%string "SHIMO" eq_refl _)
              [Tile 45] _ _).
    + intros q Hq. apply list_elem_of_singleton in Hq as ->.
      vm_compute. reflexivity.
    + vm_compute. reflexivity.
    + discriminate.
  - refine (proj1 (get_draws_first_key (fun _ => 0%nat)
                     (config_with_draws {[ "HERO"%string := [] ]})
                     ["HERO"%string] ["TOIMEN"; "KAMI"]%string "SHIMO" eq_refl _) _).
    + intros q Hq. apply list_elem_of_singleton in Hq as ->.
      vm_compute. reflexivity.
    + vm_compute. reflexivity.
Defined.

Lemma hero_index_invalid (cfg : Config) :
  HERO_SEAT cfg ∉ seats -> hero_index cfg = Raise (ValueError "not in list").
Proof.
  unfold hero_index, seats, index_of. intros Hnot.
  destruct (String.eqb_spec "EAST" (HERO_SEAT cfg)) as [E | _];
    [exfalso; apply Hnot; rewrite <- E; set_solver |].
  destruct (String.eqb_spec "SOUTH" (HERO_SEAT cfg)) as [E | _];
    [exfalso; apply Hnot; rewrite <- E; set_solver |].
  destruct (String.eqb_spec "WEST" (HERO_SEAT cfg)) as [E | _];
    [exfalso; apply Hnot; rewrite <- E; set_solver |].
  destruct (String.eqb_spec "NORTH" (HERO_SEAT cfg)) as [E | _];
    [exfalso; apply Hnot; rewrite <- E; set_solver |].
  reflexivity.
Qed.

Lemma get_draws_cases (rnd : nat -> nat) (cfg : Config) :
  (forall p, p ∈ positions -> is_Some (DRAWS cfg !! p)) ->
  get_draws rnd cfg = Ok (DRAWS cfg)
  \/ get_draws rnd cfg = generate_random_draws rnd cfg.
Proof.
  intros Hkeys.
  destruct (Hkeys "HERO"%string ltac:(unfold positions; set_solver)) as [h Hh].
  destruct (Hkeys "SHIMO"%string ltac:(unfold positions; set_solver)) as [s Hs].
  destruct (Hkeys "TOIMEN"%string ltac:(unfold positions; set_solver)) as [t Ht].
  destruct (Hkeys "KAMI"%string ltac:(unfold positions; set_solver)) as [k Hk].
  unfold get_draws, positions, all_of, lookup_key.
  rewrite Hh, Hs, Ht, Hk. cbn.
  repeat (case_bool_decide; cbn; auto).
Qed.

Lemma generate_invalid_seat (rnd : nat -> nat) (cfg : Config) :
  HERO_SEAT cfg ∉ seats ->
  generate_random_draws rnd cfg = Raise (ValueError "not in list").
Proof.
  intros Hnot. unfold generate_random_draws, simulate_draws.
  destruct (starting_pool_spec cfg) as (dealt & start & _ & -> & _). cbn.
  now rewrite (hero_index_invalid cfg Hnot).
Qed.

(** X7: when [HERO_SEAT] is none of EAST, SOUTH, WEST and NORTH, the score
    computation, the draw generator and (with the four draw lists present)
    the log builder all raise the [ValueError] of [seats.index]; none of
    them returns a result. *)
Theorem unknown_hero_seat (rnd : nat -> nat) (cfg : Config) :
  HERO_SEAT cfg ∉ seats ->
  calculate_score_changes cfg = Raise (ValueError "not in list") /\
  generate_random_draws rnd cfg = Raise (ValueError "not in list") /\
  ((forall p, p ∈ positions -> is_Some (DRAWS cfg !! p)) ->
     build_player_data rnd cfg = Raise (ValueError "not in list")).
Proof.
  intros Hnot. pose proof (hero_index_invalid cfg Hnot) as Hidx.
  pose proof (generate_invalid_seat rnd cfg Hnot) as Hgen.
  split; [| split].
  - unfold calculate_score_changes. now rewrite Hidx.
  - exact Hgen.
  - intros Hkeys. unfold build_player_data.
    destruct (get_draws_cases rnd cfg Hkeys) as [-> | ->].
    + cbn. now rewrite Hidx.
    + now rewrite Hgen.
Qed.

Lemma unknown_hero_seat_witness :
  let cfg := config_with "TON" 8 "RIICHI" 0 in
  calculate_score_changes cfg = Raise (ValueError "not in list") /\
  generate_random_draws (fun _ => 0%nat) cfg = Raise (ValueError "not in list") /\
  build_player_data (fun _ => 0%nat) cfg = Raise (ValueError "not in list").
Proof.
  intros cfg.
  assert (Hnot : HERO_SEAT cfg ∉ seats).
  { intros Hin. unfold seats in Hin.
    repeat (apply elem_of_cons in Hin as [Hin | Hin]; [discriminate Hin |]).
    now apply elem_of_nil in Hin. }
  destruct (unknown_hero_seat (fun _ => 0%nat) cfg Hnot) as (H1 & H2 & H3).
  split; [exact H1 |]. split; [exact H2 |]. apply H3.
  apply elem_of_positions; eexists; vm_compute; reflexivity.
Defined.

(** ** When the generator succeeds *)

Lemma remove_if_present_length (x : Z) (l l' : list Z) :
  remove_if_present x l = Ok l' ->
  (length l' <= length l <= S (length l'))%nat.
Proof.
  unfold remove_if_present. destruct (mem x l) eqn:Hm.
  - apply mem_elem_of in Hm. destruct (list_remove_elem x l Hm) as (l1 & -> & Hp).
    intros [= <-]. apply Permutation_length in Hp. simpl in Hp. lia.
  - intros [= <-]. lia.
Qed.

Lemma remove_each_length (xs : list Z) :
  forall l l', for_each remove_if_present xs l = Ok l' ->
               (length l' <= length l <= length l' + length xs)%nat.
Proof.
  induction xs as [|x xs IH]; intros l l'.
  - intros [= <-]. simpl. lia.
  - rewrite for_each_cons.
    destruct (remove_if_present x l) as [l1 | e] eqn:E; [| discriminate].
    intros Hrest. apply remove_if_present_length in E. apply IH in Hrest.
    simpl. lia.
Qed.

Lemma starting_pool_length (cfg : Config) (start : list Z) :
  starting_pool cfg = Ok start ->
  (length start <= 136 <= length start + length (fixed_tiles cfg))%nat.
Proof.
  unfold starting_pool.
  destruct (dealt_pool_ok cfg) as (dealt & Hd & Hlen).
  unfold dealt_pool in Hd. rewrite Hd. cbn.
  destruct (for_each remove_if_present (HERO_HAND cfg) dealt) as [l1 | e] eqn:E1;
    [| discriminate]. cbn.
  destruct (remove_if_present (HERO_LAST_DRAW cfg) l1) as [l2 | e] eqn:E2;
    [| discriminate]. cbn.
  intros E3.
  apply remove_each_length in E1, E3. apply remove_if_present_length in E2.
  unfold fixed_tiles. rewrite !length_app. simpl. lia.
Qed.

(** X8: with a valid hero seat and a hero turn [n] of at least 1 the
    generator makes [4n - 1] random draws: it returns draws exactly when
    the starting pool holds at least [4n - 1] tiles, and then the hero's
    record has [n] entries ending with the fixed hero draw and the winner's
    record ends with the tile 45; with a smaller pool it raises
    [ValueError("No tiles left in pool!")]. *)
Theorem generation_outcome (rnd : nat -> nat) (cfg : Config) :
  HERO_SEAT cfg ∈ seats ->
  1 <= HERO_LAST_DISCARD_TURN cfg ->
  let n := Z.to_nat (HERO_LAST_DISCARD_TURN cfg) in
  exists start,
    starting_pool cfg = Ok start /\
    ((4 * n - 1 <= length start)%nat ->
       exists d l s,
         generate_random_draws rnd cfg = Ok d /\
         d !! "HERO" = Some (l ++ [Tile (HERO_LAST_DRAW cfg)]) /\
         S (length l) = n /\
         d !! "SHIMO" = Some (s ++ [Tile 45])) /\
    ((length start < 4 * n - 1)%nat ->
       generate_random_draws rnd cfg
       = Raise (ValueError "No tiles left in pool!")).
Proof.
  intros Hseat Hn n.
  destruct (hero_index_seat cfg Hseat) as (h & Hh & _).
  destruct (starting_pool_spec cfg) as (dealt & start & _ & Hs & _).
  exists start. split; [exact Hs |].
  pose proof (generate_random_draws_spec rnd cfg h start Hh Hs Hn) as Hspec.
  fold n in Hspec.
  destruct (generate_random_draws rnd cfg) as [d | e].
  - destruct Hspec as (l & s & t & k & Hl & Hsh & _ & _ & Hll & _ & _ & _ & Hlen).
    split; [| lia]. intros _. exists d, l, s. auto.
  - destruct Hspec as [Hlt ->]. split; [lia | reflexivity].
Qed.

Lemma generation_outcome_witness :
  exists start,
    starting_pool default_config = Ok start /\ length start = 121%nat /\
    exists d l s,
      generate_random_draws (fun k => 7 * k + 3)%nat default_config = Ok d /\
      d !! "HERO" = Some (l ++ [Tile 32]) /\ S (length l) = 8%nat /\
      d !! "SHIMO" = Some (s ++ [Tile 45]).
Proof.
  destruct (generation_outcome (fun k => 7 * k + 3)%nat default_config)
    as (start & Hs & Hok & _).
  - vm_compute. do 3 right. left.
  - simpl. lia.
  - assert (Hlen : length start = 121%nat).
    { vm_compute in Hs. injection Hs as <-. reflexivity. }
    exists start. split; [exact Hs |]. split; [exact Hlen |].
    apply Hok. rewrite Hlen. simpl. lia.
Defined.

(** X9: the size of the configuration decides the outcome in two ranges:
    with a valid seat and a hero turn [n >= 1], the generator never runs
    out of tiles when [4n] plus the sizes of the hero's hand and of the
    dora indicators is at most 136, and it always runs out when [4n]
    exceeds 137, whatever the random source. *)
Theorem generation_by_size (rnd : nat -> nat) (cfg : Config) :
  HERO_SEAT cfg ∈ seats ->
  1 <= HERO_LAST_DISCARD_TURN cfg ->
  let n := Z.to_nat (HERO_LAST_DISCARD_TURN cfg) in
  ((4 * n + length (HERO_HAND cfg) + length (DORA_INDICATOR cfg) <= 136)%nat ->
     exists d, generate_random_draws rnd cfg = Ok d) /\
  ((137 < 4 * n)%nat ->
     generate_random_draws rnd cfg = Raise (ValueError "No tiles left in pool!")).
Proof.
  intros Hseat Hn n.
  destruct (hero_index_seat cfg Hseat) as (h & Hh & _).
  destruct (starting_pool_spec cfg) as (dealt & start & _ & Hs & _).
  pose proof (starting_pool_length cfg start Hs) as Hlen.
  unfold fixed_tiles in Hlen. rewrite !length_app in Hlen. simpl in Hlen.
  pose proof (generate_random_draws_spec rnd cfg h start Hh Hs Hn) as Hspec.
  fold n in Hspec.
  destruct (generate_random_draws rnd cfg) as [d | e].
  - destruct Hspec as (l & s & t & k & _ & _ & _ & _ & _ & _ & _ & _ & Hok).
    split; [eauto | lia].
  - destruct Hspec as [Hlt ->]. split; [lia | reflexivity].
Qed.

Lemma generation_by_size_witness :
  (exists d, generate_random_draws (fun _ => 0%nat) default_config = Ok d) /\
  generate_random_draws (fun _ => 0%nat) (config_with "NORTH" 35 "RIICHI" 0)
  = Raise (ValueError "No tiles left in pool!").
Proof.
  split.
  - refine (proj1 (generation_by_size (fun _ => 0%nat) default_config _ _) _).
    + vm_compute. do 3 right. left.
    + simpl. lia.
    + simpl. lia.
  - refine (proj2 (generation_by_size (fun _ => 0%nat)
                     (config_with "NORTH" 35 "RIICHI" 0) _ _) _).
    + vm_compute. do 3 right. left.
    + simpl. lia.
    + simpl. lia.
Defined.

(** X10: with a valid hero seat and a hero turn below 1 no round is played
    and nothing is drawn: the generator returns empty records for HERO,
    TOIMEN and KAMI and the single tile 45 for SHIMO, and it cannot fail. *)
Theorem generation_without_rounds (rnd : nat -> nat) (cfg : Config) :
  HERO_SEAT cfg ∈ seats ->
  HERO_LAST_DISCARD_TURN cfg <= 0 ->
  generate_random_draws rnd cfg
  = Ok {[ "HERO"%string := []; "SHIMO"%string := [Tile 45];
          "TOIMEN"%string := []; "KAMI"%string := [] ]}.
Proof.
  intros Hseat Hn.
  destruct (hero_index_seat cfg Hseat) as (h & Hh & _).
  destruct (starting_pool_spec cfg) as (dealt & start & _ & Hs & _).
  unfold generate_random_draws.
  rewrite (simulate_draws_none rnd cfg h start Hh Hs Hn). cbn.
  f_equal.
Qed.

Lemma generation_without_rounds_witness :
  generate_random_draws (fun _ => 0%nat) (config_with "EAST" 0 "RIICHI" 0)
  = Ok {[ "HERO"%string := []; "SHIMO"%string := [Tile 45];
          "TOIMEN"%string := []; "KAMI"%string := [] ]}.
Proof.
  apply (generation_without_rounds (fun _ => 0%nat)
           (config_with "EAST" 0 "RIICHI" 0)).
  - vm_compute. left.
  - simpl. lia.
Defined.

(** ** The tiles of the generated records *)

Lemma starting_pool_sub (cfg : Config) (dealt start : list Z) (x : Z) :
  dealt_pool cfg = Ok dealt -> starting_pool cfg = Ok start ->
  x ∈ start -> x ∈ dealt.
Proof.
  intros Hd Hs Hx.
  destruct (starting_pool_spec cfg) as (dealt' & start' & Hd' & Hs' & _ & Hc).
  rewrite Hd in Hd'. injection Hd' as <-. rewrite Hs in Hs'. injection Hs' as <-.
  apply list_elem_of_In, (count_occ_In Z.eq_dec) in Hx.
  apply list_elem_of_In, (count_occ_In Z.eq_dec).
  specialize (Hc x). unfold count in Hc. lia.
Qed.

Lemma dealt_pool_haku (cfg : Config) (dealt : list Z) :
  dealt_pool cfg = Ok dealt -> 45 ∈ dealt.
Proof.
  unfold dealt_pool, red_fives. intros Hd.
  destruct (bool_decide _); vm_compute in Hd; injection Hd as <-;
    apply list_elem_of_In, (count_occ_In Z.eq_dec); vm_compute; lia.
Qed.

(** X11: every entry of the records the generator returns is a tile
    number, and that tile is a tile of the dealt pool (a suited tile, an
    honor or, with red fives on, a red five) or the configured hero draw:
    the generator never invents a tile. *)
Theorem generated_tiles_from_pool (rnd : nat -> nat) (cfg : Config)
    (d : gmap string (list Entry)) (dealt : list Z) :
  generate_random_draws rnd cfg = Ok d ->
  dealt_pool cfg = Ok dealt ->
  forall p e, p ∈ positions -> e ∈ record_of d p ->
    exists t, e = Tile t /\ (t ∈ dealt \/ t = HERO_LAST_DRAW cfg).
Proof.
  intros Hgen Hd. unfold generate_random_draws in Hgen.
  destruct (simulate_draws rnd cfg) as [st | e0] eqn:Hsim; [| discriminate].
  destruct (simulate_draws_inputs rnd cfg st Hsim) as (h & start & Hh & Hs).
  pose proof (dealt_pool_haku cfg dealt Hd) as Hhaku.
  assert (Hfrom : forall drawn rest e,
             Tile <$> start ≡ₚ rest ++ drawn -> e ∈ drawn ->
             exists t, e = Tile t /\ (t ∈ dealt \/ t = HERO_LAST_DRAW cfg)).
  { intros drawn rest e Hp He.
    assert (Hin : e ∈ Tile <$> start) by (rewrite Hp; set_solver).
    apply list_elem_of_fmap in Hin as (t & -> & Ht).
    exists t. split; [reflexivity | left].
    eapply starting_pool_sub; eauto. }
  destruct (Z_le_gt_dec 1 (HERO_LAST_DISCARD_TURN cfg)) as [Hn | Hn].
  - pose proof (simulate_draws_spec rnd cfg h start Hh Hs Hn) as Hspec.
    rewrite Hsim in Hspec. destruct Hspec as [Inv _].
    destruct (GenInv_final _ _ _ _ Inv)
      as (l & s & t & k & Hl & Hsh & Ht & Hk & _ & _ & _ & _ & Hdr & Hp & _).
    rewrite Hdr in Hp.
    cbn [mbind Result_bind] in Hgen.
    unfold lookup_key in Hgen. rewrite Hsh in Hgen.
    cbn [mbind Result_bind from_option mret Result_ret] in Hgen.
    injection Hgen as <-.
    intros p e Hpos. revert e. revert p Hpos.
    apply (elem_of_positions
             (fun p => forall e, e ∈ record_of _ p -> _));
      intros e; unfold record_of;
      rewrite ?lookup_insert_eq, ?lookup_insert_ne by done;
      rewrite ?Hl, ?Ht, ?Hk; cbn; intros He.
    + apply elem_of_app in He as [He | He].
      * apply (Hfrom (l ++ s ++ t ++ k) _ e Hp). set_solver.
      * apply list_elem_of_singleton in He as ->. eauto.
    + apply elem_of_app in He as [He | He].
      * apply (Hfrom (l ++ s ++ t ++ k) _ e Hp). set_solver.
      * apply list_elem_of_singleton in He as ->. eauto.
    + apply (Hfrom (l ++ s ++ t ++ k) _ e Hp). set_solver.
    + apply (Hfrom (l ++ s ++ t ++ k) _ e Hp). set_solver.
  - rewrite (simulate_draws_none rnd cfg h start Hh Hs) in Hsim by lia.
    injection Hsim as <-. cbn in Hgen. injection Hgen as <-.
    intros p e Hpos. revert e. revert p Hpos.
    apply (elem_of_positions
             (fun p => forall e, e ∈ record_of _ p -> _));
      intros e; unfold record_of;
      rewrite ?lookup_insert_eq, ?lookup_insert_ne by done; cbn; intros He.
    + now apply elem_of_nil in He.
    + apply list_elem_of_singleton in He as ->. eauto.
    + now apply elem_of_nil in He.
    + now apply elem_of_nil in He.
Qed.

Lemma generated_tiles_from_pool_witness :
  exists d dealt,
    generate_random_draws (fun k => 7 * k + 3)%nat default_config = Ok d /\
    dealt_pool default_config = Ok dealt /\
    forall p e, p ∈ positions -> e ∈ record_of d p ->
      exists t, e = Tile t /\ (t ∈ dealt \/ t = 32).
Proof.
  assert (Hex : exists d,
             generate_random_draws (fun k => 7 * k + 3)%nat default_config = Ok d)
    by (eexists; vm_compute; reflexivity).
  destruct Hex as [d Hgen].
  destruct (dealt_pool default_config) as [dealt | e] eqn:Hd;
    [| vm_compute in Hd; discriminate Hd].
  exists d, dealt. split; [exact Hgen |]. split; [reflexivity |].
  exact (generated_tiles_from_pool _ default_config d dealt Hgen Hd).
Defined.

(** ** The player data *)

Lemma player_triple_other_exact (cfg : Config) (cd : gmap string (list Entry))
    (h i : nat) (n : Z) (cn : Entry) (res : list (list Entry))
    (p : string) (d : list Entry) :
  abs_to_pos h !! i = Some p ->
  p <> "HERO"%string ->
  cd !! p = Some d ->
  player_triple cfg cd h n cn i res
  = Ok (res ++ [repeat (Tile 45) 13; d;
                build_other_player_discards cfg p
                  (if (i <=? h)%nat then n else n - 1)]).
Proof.
  intros Hp Hne Hd. unfold player_triple, lookup_key.
  rewrite Hp. cbn [mbind Result_bind from_option].
  destruct (String.eqb_spec p "HERO") as [? | _]; [contradiction |].
  destruct (String.eqb_spec p "SHIMO") as [-> | _]; rewrite Hd; reflexivity.
Qed.

Lemma player_triple_hero_raise (cfg : Config) (cd : gmap string (list Entry))
    (h i : nat) (n : Z) (cn : Entry) (res : list (list Entry))
    (hd : list Entry) (e : Exn) :
  abs_to_pos h !! i = Some "HERO"%string ->
  cd !! "HERO" = Some hd ->
  hero_records cfg cn hd = Raise e ->
  player_triple cfg cd h n cn i res = Raise e.
Proof.
  intros Hp Hd Hr. unfold player_triple, lookup_key.
  rewrite Hp. cbn. rewrite Hd. cbn. now rewrite Hr.
Qed.

(** The step of the seat loop for a position other than the hero. *)
Ltac triple_exact Hother Hd :=
  rewrite for_each_cons;
  match goal with
  | |- context [player_triple _ _ _ _ _ ?i ?r] =>
      rewrite (Hother i r _ _ eq_refl ltac:(discriminate) Hd)
  end.

Lemma seat_loop_result (cfg : Config) (cd : gmap string (list Entry))
    (h : nat) (n : Z) (cn : Entry) (hd sd td kd draws discards : list Entry) :
  (h < 4)%nat ->
  cd !! "HERO" = Some hd -> cd !! "SHIMO" = Some sd ->
  cd !! "TOIMEN" = Some td -> cd !! "KAMI" = Some kd ->
  hero_records cfg cn hd = Ok (draws, discards) ->
  for_each (player_triple cfg cd h n cn) (seq 0 4) []
  = Ok (flat_map (expected_triple cfg cd h n draws discards) (seq 0 4)).
Proof.
  intros Hlt Hhd Hsd Htd Hkd Hrec.
  change (seq 0 4) with [0; 1; 2; 3]%nat.
  assert (Hhero : forall i res, abs_to_pos h !! i = Some "HERO"%string ->
             player_triple cfg cd h n cn i res
             = Ok (res ++ [Tile <$> HERO_HAND cfg; draws; discards])).
  { intros i res Hp. now apply (player_triple_hero cfg cd h i n cn res hd). }
  pose proof (fun i res => player_triple_other_exact cfg cd h i n cn res)
    as Hother.
  destruct h as [|[|[|[|h]]]]; [| | | | lia].
  - triple_hero Hhero. triple_exact Hother Hsd.
    triple_exact Hother Htd. triple_exact Hother Hkd.
    unfold flat_map, expected_triple, record_of. rewrite Hsd, Htd, Hkd.
    reflexivity.
  - triple_exact Hother Hkd. triple_hero Hhero.
    triple_exact Hother Hsd. triple_exact Hother Htd.
    unfold flat_map, expected_triple, record_of. rewrite Hsd, Htd, Hkd.
    reflexivity.
  - triple_exact Hother Htd. triple_exact Hother Hkd.
    triple_hero Hhero. triple_exact Hother Hsd.
    unfold flat_map, expected_triple, record_of. rewrite Hsd, Htd, Hkd.
    reflexivity.
  - triple_exact Hother Hsd. triple_exact Hother Htd.
    triple_exact Hother Hkd. triple_hero Hhero.
    unfold flat_map, expected_triple, record_of. rewrite Hsd, Htd, Hkd.
    reflexivity.
Qed.

Lemma seat_loop_raise (cfg : Config) (cd : gmap string (list Entry))
    (h : nat) (n : Z) (cn : Entry) (hd sd td kd : list Entry) (e : Exn) :
  (h < 4)%nat ->
  cd !! "HERO" = Some hd -> cd !! "SHIMO" = Some sd ->
  cd !! "TOIMEN" = Some td -> cd !! "KAMI" = Some kd ->
  hero_records cfg cn hd = Raise e ->
  for_each (player_triple cfg cd h n cn) (seq 0 4) [] = Raise e.
Proof.
  intros Hlt Hhd Hsd Htd Hkd Hrec.
  change (seq 0 4) with [0; 1; 2; 3]%nat.
  assert (Hhero : forall i res, abs_to_pos h !! i = Some "HERO"%string ->
             player_triple cfg cd h n cn i res = Raise e).
  { intros i res Hp. now apply (player_triple_hero_raise cfg cd h i n cn res hd). }
  pose proof (fun i res => player_triple_other_exact cfg cd h i n cn res)
    as Hother.
  destruct h as [|[|[|[|h]]]]; [| | | | lia].
  - triple_hero Hhero. reflexivity.
  - triple_exact Hother Hkd. triple_hero Hhero. reflexivity.
  - triple_exact Hother Htd. triple_exact Hother Hkd.
    triple_hero Hhero. reflexivity.
  - triple_exact Hother Hsd. triple_exact Hother Htd.
    triple_exact Hother Hkd. triple_hero Hhero. reflexivity.
Qed.

Lemma build_player_data_unfold (rnd : nat -> nat) (cfg : Config) (h : nat)
    (cd : gmap string (list Entry)) (hd : list Entry) (cn : Entry) :
  hero_index cfg = Ok h ->
  get_draws rnd cfg = Ok cd ->
  cd !! "HERO" = Some hd ->
  hero_call_notation cfg = Ok cn ->
  build_player_data rnd cfg
  = for_each (player_triple cfg cd h (Z.of_nat (length hd)) cn) (seq 0 4) [].
Proof.
  intros Hh Hget Hhd Hcn. unfold build_player_data, lookup_key.
  rewrite Hget. cbn [mbind Result_bind]. rewrite Hh. cbn [mbind Result_bind].
  rewrite Hhd. cbn [mbind Result_bind from_option]. rewrite Hcn. reflexivity.
Qed.



(** X13: a call action on an empty hero draw record cannot be written: with
    the hero's draw list empty and the action CHI, PON, KAN or ANKAN, the
    log builder raises the [IndexError] of [draws[-1] = ...]. *)
Theorem call_on_empty_hero_draws (rnd : nat -> nat) (cfg : Config) (h : nat)
    (cd : gmap string (list Entry)) (sd td kd : list Entry) :
  hero_index cfg = Ok h ->
  get_draws rnd cfg = Ok cd ->
  cd !! "HERO" = Some [] -> cd !! "SHIMO" = Some sd ->
  cd !! "TOIMEN" = Some td -> cd !! "KAMI" = Some kd ->
  is_call (HERO_LAST_ACTION cfg) ->
  build_player_data rnd cfg
  = Raise (IndexError "list assignment index out of range").
Proof.
  intros Hh Hget Hhd Hsd Htd Hkd Hcall.
  destruct (hero_call_notation_ok cfg) as (cn & Hcn & _).
  pose proof (hero_index_bound cfg h Hh) as [Hlt _].
  rewrite (build_player_data_unfold rnd cfg h cd [] cn Hh Hget Hhd Hcn).
  apply (seat_loop_raise cfg cd h _ cn [] sd td kd _ Hlt Hhd Hsd Htd Hkd).
  unfold hero_records, is_call in *.
  apply elem_of_cons in Hcall as [-> | Hcall]; [reflexivity |].
  apply elem_of_cons in Hcall as [-> | Hcall]; [reflexivity |].
  apply elem_of_cons in Hcall as [-> | Hcall]; [reflexivity |].
  apply elem_of_cons in Hcall as [-> | Hcall]; [reflexivity |].
  now apply elem_of_nil in Hcall.
Qed.

Lemma call_on_empty_hero_draws_witness :
  build_player_data (fun _ => 0%nat) (config_with "WEST" 0 "CHI" 28)
  = Raise (IndexError "list assignment index out of range").
Proof.
  apply (call_on_empty_hero_draws (fun _ => 0%nat)
           (config_with "WEST" 0 "CHI" 28) 2%nat
           {[ "HERO"%string := []; "SHIMO"%string := [Tile 45];
              "TOIMEN"%string := []; "KAMI"%string := [] ]}
           [Tile 45] [] []);
    try (vm_compute; reflexivity).
  unfold is_call. simpl. left.
Defined.

Lemma get_draws_all_empty (rnd : nat -> nat) (cfg : Config) :
  (forall p, p ∈ positions -> DRAWS cfg !! p = Some []) ->
  get_draws rnd cfg = generate_random_draws rnd cfg.
Proof.
  intros Hall. unfold get_draws.
  rewrite <- (app_nil_r positions), (all_of_empty_prefix _ _ _ Hall).
  reflexivity.
Qed.

Lemma insert_last_snoc (l : list Entry) (x y : Entry) :
  <[pred (length (l ++ [x])) := y]> (l ++ [x]) = l ++ [y].
Proof.
  rewrite length_app. simpl.
  replace (pred (length l + 1)) with (length l + 0)%nat by lia.
  now rewrite insert_app_r.
Qed.

(** X14: the log built from generated draws (all four configured lists
    empty, a valid seat, a hero turn [n >= 1] and a pool that does not run
    out): the hero has [n] discards, and the hero's draws are the [n - 1]
    tiles drawn from the pool followed by the fixed hero draw for DISCARD
    and RIICHI, by the call notation in its place for CHI and PON, and by
    the call notation and then the fixed hero draw for KAN and ANKAN.  The
    call notation [cn] is the string the encoder returns for the action
    with the called tile and, for CHI, the hand tiles, for PON and KAN,
    the configured source. *)
Theorem generated_hero_records (rnd : nat -> nat) (cfg : Config)
    (d : gmap string (list Entry)) :
  let action := HERO_LAST_ACTION cfg in
  let n := Z.to_nat (HERO_LAST_DISCARD_TURN cfg) in
  (forall p, p ∈ positions -> DRAWS cfg !! p = Some []) ->
  HERO_SEAT cfg ∈ seats ->
  1 <= HERO_LAST_DISCARD_TURN cfg ->
  generate_random_draws rnd cfg = Ok d ->
  exists h res cn l draws discards,
    hero_index cfg = Ok h /\
    build_player_data rnd cfg = Ok res /\
    hero_call_notation cfg = Ok cn /\
    d !! "HERO" = Some (l ++ [Tile (HERO_LAST_DRAW cfg)]) /\
    S (length l) = n /\
    res !! (3 * h + 1)%nat = Some draws /\
    res !! (3 * h + 2)%nat = Some discards /\
    length discards = n /\
    (~ is_call action -> draws = l ++ [Tile (HERO_LAST_DRAW cfg)]) /\
    (action = "CHI"%string \/ action = "PON"%string -> draws = l ++ [cn]) /\
    (action = "KAN"%string \/ action = "ANKAN"%string ->
       draws = l ++ [cn; Tile (HERO_LAST_DRAW cfg)]) /\
    (action = "CHI"%string ->
       exists s,
         generate_call_notation "CHI" (HERO_CALL_TILE cfg) None
           (Some (HERO_CHI_TILES cfg)) = Ok s /\ cn = Text s) /\
    (action = "PON"%string ->
       exists s,
         generate_call_notation "PON" (HERO_CALL_TILE cfg)
           (Some (HERO_PON_SOURCE cfg)) None = Ok s /\ cn = Text s) /\
    (action = "KAN"%string ->
       exists s,
         generate_call_notation "KAN" (HERO_CALL_TILE cfg)
           (Some (HERO_KAN_SOURCE cfg)) None = Ok s /\ cn = Text s) /\
    (action = "ANKAN"%string ->
       exists s,
         generate_call_notation "ANKAN" (HERO_CALL_TILE cfg) None None = Ok s
         /\ cn = Text s).
Proof.
  intros action n Hempty Hseat Hn Hgen.
  destruct (hero_index_seat cfg Hseat) as (h & Hh & Hlt & _).
  destruct (starting_pool_spec cfg) as (dealt & start & _ & Hs & _).
  pose proof (generate_random_draws_spec rnd cfg h start Hh Hs Hn) as Hspec.
  rewrite Hgen in Hspec. fold n in Hspec.
  destruct Hspec as (l & s & t & k & Hl & Hsh & Ht & Hk & Hll & _).
  assert (Hget : get_draws rnd cfg = Ok d)
    by now rewrite (get_draws_all_empty rnd cfg Hempty).
  destruct (hero_call_notation_ok cfg) as (cn & Hcn & _).
  set (hd := l ++ [Tile (HERO_LAST_DRAW cfg)]) in *.
  assert (Hne : is_call action -> hd <> []).
  { intros _. unfold hd. now destruct l. }
  destruct (hero_records_spec cfg cn hd Hne) as (draws & Hrec & Hchi & Hkan & Hno).
  fold action in Hchi, Hkan, Hno.
  unfold hd in Hchi, Hkan. rewrite insert_last_snoc in Hchi, Hkan.
  set (discards := repeat (Tile 60) (Z.to_nat (HERO_LAST_DISCARD_TURN cfg - 1))
                   ++ [hero_final_discard cfg]) in *.
  eexists h, _, cn, l, draws, discards.
  split; [exact Hh |].
  rewrite (build_player_data_unfold rnd cfg h d hd cn Hh Hget Hl Hcn).
  rewrite (seat_loop_result cfg d h _ cn hd _ _ _ _ _ Hlt Hl Hsh Ht Hk Hrec).
  split; [reflexivity |]. split; [exact Hcn |]. split; [exact Hl |].
  split; [exact Hll |].
  split; [| split; [| split; [| split; [| split]]]].
  - unfold expected_triple.
    destruct h as [|[|[|[|h]]]]; [reflexivity .. | lia].
  - unfold expected_triple.
    destruct h as [|[|[|[|h]]]]; [reflexivity .. | lia].
  - unfold discards. rewrite length_app, repeat_length. simpl. lia.
  - exact Hno.
  - exact Hchi.
  - split; [intros Hc; rewrite (Hkan Hc); now rewrite <- app_assoc |].
    exact (hero_call_notation_spec cfg cn Hcn).
Qed.

Lemma generated_hero_records_witness :
  let cfg := config_with "SOUTH" 3 "PON" 28 in
  exists d h res cn l draws discards,
    generate_random_draws (fun k => 7 * k + 3)%nat cfg = Ok d /\
    hero_index cfg = Ok h /\
    build_player_data (fun k => 7 * k + 3)%nat cfg = Ok res /\
    hero_call_notation cfg = Ok cn /\
    cn = Text "p282828" /\
    d !! "HERO" = Some (l ++ [Tile 32]) /\
    res !! (3 * h + 1)%nat = Some draws /\
    res !! (3 * h + 2)%nat = Some discards /\
    length discards = 3%nat /\
    draws = l ++ [Text "p282828"].
Proof.
  intros cfg.
  assert (Hex : exists d, generate_random_draws (fun k => 7 * k + 3)%nat cfg = Ok d)
    by (eexists; vm_compute; reflexivity).
  destruct Hex as [d Hgen].
  destruct (generated_hero_records (fun k => 7 * k + 3)%nat cfg d)
    as (h & res & cn & l & draws & discards & Hh & Hb & Hcn & Hl & _ & H1 & H2
        & Hlen & _ & Hpon & _ & _ & Hs & _).
  - apply elem_of_positions; vm_compute; reflexivity.
  - vm_compute. right. left.
  - simpl. lia.
  - exact Hgen.
  - destruct (Hs eq_refl) as (s & Hnot & Hcs).
    assert (Hm : s = "p282828"%string).
    { vm_compute in Hnot. now injection Hnot as <-. }
    assert (Hc : cn = Text "p282828") by now rewrite Hcs, Hm.
    exists d, h, res, cn, l, draws, discards.
    rewrite <- Hc. repeat split; try assumption.
    apply Hpon. right. reflexivity.
Defined.

(** ** The pool *)

Lemma count_by_range (aka : bool) (l : list Z) :
  forallb (fun y => (11 <=? y) && (y <=? 53)) l = true ->
  forallb (fun y => Nat.eqb (count y l) (expected_count aka y)) (seqZ 11 43) = true ->
  forall x, count x l = expected_count aka x.
Proof.
  intros Hrange Hcheck x.
  destruct (decide (11 <= x <= 53)) as [Hin | Hout].
  - rewrite forallb_forall in Hcheck. apply Nat.eqb_eq, Hcheck.
    apply list_elem_of_In, elem_of_seqZ. lia.
  - assert (Hnot : ~ In x l).
    { intros Hx. rewrite forallb_forall in Hrange. apply Hrange in Hx. lia. }
    apply (count_occ_not_In Z.eq_dec) in Hnot. unfold count. rewrite Hnot.
    unfold expected_count.
    destruct (Z.leb_spec 51 x), (Z.leb_spec x 53), (Z.leb_spec 41 x),
      (Z.leb_spec x 47), (Z.leb_spec 11 x), (Z.leb_spec x 39);
      simpl; try reflexivity; lia.
Qed.

(** X15: the pool the generator deals has 136 tiles: four copies of every
    suited tile and of every honor and nothing else; when [RULE] has
    [aka] equal to 1, one copy of each of 15, 25 and 35 is replaced by the
    red five 51, 52 or 53, and otherwise there is no red five. *)
Theorem dealt_pool_composition (cfg : Config) :
  exists dealt,
    dealt_pool cfg = Ok dealt /\
    length dealt = 136%nat /\
    forall x,
      count x dealt
      = expected_count (bool_decide (RULE cfg !! "aka" = Some (Tile 1))) x.
Proof.
  unfold dealt_pool, red_fives.
  destruct (bool_decide (RULE cfg !! "aka" = Some (Tile 1))).
  - eexists. split; [vm_compute; reflexivity |]. split; [reflexivity |].
    apply count_by_range; vm_compute; reflexivity.
  - eexists. split; [vm_compute; reflexivity |]. split; [reflexivity |].
    apply count_by_range; vm_compute; reflexivity.
Qed.

Lemma remove_each_present (xs : list Z) :
  forall l l',
    (forall x, (count x xs <= count x l)%nat) ->
    for_each remove_if_present xs l = Ok l' ->
    (length l' + length xs)%nat = length l.
Proof.
  induction xs as [|x xs IH]; intros l l' Hsub.
  - intros [= <-]. simpl. lia.
  - rewrite for_each_cons.
    destruct (remove_if_present_spec x l) as (l1 & E & Hc). rewrite E.
    intros Hrest.
    assert (Hx : x ∈ l).
    { apply list_elem_of_In, (count_occ_In Z.eq_dec).
      specialize (Hsub x). unfold count in Hsub. simpl in Hsub.
      destruct (Z.eq_dec x x); [lia | congruence]. }
    assert (Hlen : length l = S (length l1)).
    { unfold remove_if_present in E.
      rewrite (proj2 (mem_elem_of x l) Hx) in E.
      destruct (list_remove_elem x l Hx) as (l2 & E2 & Hp).
      rewrite E2 in E. injection E as <-.
      apply Permutation_length in Hp. exact Hp. }
    assert (Hsub1 : forall y, (count y xs <= count y l1)%nat).
    { intros y. rewrite Hc. specialize (Hsub y). unfold count in *. simpl in *.
      destruct (Z.eq_dec x y); lia. }
    pose proof (IH l1 l' Hsub1 Hrest) as Hrec. simpl. lia.
Qed.

Lemma starting_pool_as_loop (cfg : Config) :
  starting_pool cfg
  = (pool ← red_fives cfg full_pool;
     for_each remove_if_present (fixed_tiles cfg) pool).
Proof.
  unfold starting_pool, fixed_tiles.
  destruct (red_fives cfg full_pool) as [dealt | e]; [| reflexivity].
  cbn [mbind Result_bind]. rewrite !for_each_app.
  destruct (for_each remove_if_present (HERO_HAND cfg) dealt) as [l1 | e];
    [| reflexivity].
  cbn [mbind Result_bind app]. rewrite for_each_cons.
  destruct (remove_if_present (HERO_LAST_DRAW cfg) l1); reflexivity.
Qed.

(** X16: taking the fixed tiles out never fails: the starting pool always
    exists and has between [136 - f] and 136 tiles, where [f] is the
    number of fixed tiles (hero hand, hero draw, dora indicators); when
    the dealt pool holds every fixed tile as often as it is fixed, the
    starting pool has exactly [136 - f] tiles. *)
Theorem starting_pool_size (cfg : Config) :
  exists dealt start,
    dealt_pool cfg = Ok dealt /\ starting_pool cfg = Ok start /\
    (length start <= 136 <= length start + length (fixed_tiles cfg))%nat /\
    ((forall x, (count x (fixed_tiles cfg) <= count x dealt)%nat) ->
       (length start + length (fixed_tiles cfg))%nat = 136%nat).
Proof.
  destruct (starting_pool_spec cfg) as (dealt & start & Hd & Hs & Hlen & _).
  exists dealt, start. split; [exact Hd |]. split; [exact Hs |].
  split; [now apply starting_pool_length |].
  intros Hsub. rewrite <- Hlen.
  apply remove_each_present; [exact Hsub |].
  rewrite starting_pool_as_loop in Hs. unfold dealt_pool in Hd.
  now rewrite Hd in Hs.
Qed.

Lemma starting_pool_size_witness :
  exists dealt start,
    dealt_pool default_config = Ok dealt /\
    starting_pool default_config = Ok start /\
    length (fixed_tiles default_config) = 15%nat /\
    (length start + 15)%nat = 136%nat.
Proof.
  destruct (starting_pool_size default_config)
    as (dealt & start & Hd & Hs & _ & Hexact).
  exists dealt, start. split; [exact Hd |]. split; [exact Hs |].
  split; [reflexivity |].
  apply Hexact. intros x.
  destruct (dealt_pool_ok default_config) as (dealt' & Hd' & _).
  assert (Hc : forall l : list Z,
             forallb (fun y => Nat.leb (count y (fixed_tiles default_config))
                                      (count y l))
               (fixed_tiles default_config) = true ->
             (count x (fixed_tiles default_config) <= count x l)%nat).
  { intros l Hl.
    destruct (in_dec Z.eq_dec x (fixed_tiles default_config)) as [Hin | Hnot].
    - rewrite forallb_forall in Hl. apply Nat.leb_le, Hl, Hin.
    - apply (count_occ_not_In Z.eq_dec) in Hnot. unfold count at 1.
      rewrite Hnot. lia. }
  vm_compute in Hd. injection Hd as <-. apply Hc. vm_compute. reflexivity.
Defined.
